(** * bundle_program.py: offline deck bundler

    A shallow embedding of [bundle_program.py] and the properties of its
    inlining, title, charset, escaping and bundling steps.

    Modelling conventions.
    - A Python [str] is a [string]: the sequence of the bytes of its UTF-8
      encoding.  Every character the program inspects (tag names, quotes,
      brackets, braces, white space, the backslash, the backtick) is ASCII,
      so it is one element of the sequence.  Letter case ([str.lower],
      [re.IGNORECASE]) and white space ([str.strip], the class [\s]) are
      those of ASCII.
    - A Python [bytes] is a [list byte].
    - The file system is a function from resolved paths to nodes.
    - Library functions that depend on the host or on large tables
      ([pathlib], [mimetypes], [html.unescape]) are the fields of
      [Platform]; [str.format], [re], the [utf-8] codec, [base64] and
      [html.escape] are modelled, as far as the program uses them.
    - Exceptions are values of [exn]; fallible steps return [result]. *)

From Stdlib Require Import List Strings.String Strings.Ascii Strings.Byte Bool Arith Lia NArith.
From Stdlib Require DecimalString.
Import ListNotations.
Open Scope list_scope.
Open Scope string_scope.

Set Implicit Arguments.

(** ** Characters and strings *)

Definition dq : string := String "034"%char "".
Definition nl : string := String "010"%char "".

Definition is_upper (c : ascii) : bool :=
  ((65 <=? nat_of_ascii c) && (nat_of_ascii c <=? 90))%nat.

Definition lower_ascii (c : ascii) : ascii :=
  if is_upper c then ascii_of_nat (nat_of_ascii c + 32) else c.

(** [str.lower()] *)
Fixpoint lower (s : string) : string :=
  match s with
  | "" => ""
  | String c s' => String (lower_ascii c) (lower s')
  end.

(** White space as [str.isspace] and the class [\s] see it below 128. *)
Definition is_space (c : ascii) : bool :=
  let n := nat_of_ascii c in
  (((9 <=? n) && (n <=? 13)) || ((28 <=? n) && (n <=? 32)))%nat.

(** [s.startswith(p)] *)
Fixpoint startswith (p s : string) : bool :=
  match p, s with
  | "", _ => true
  | String a p', String b s' => Ascii.eqb a b && startswith p' s'
  | String _ _, "" => false
  end.

(** [p in s] for a non-empty [p]. *)
Fixpoint contains (p s : string) : bool :=
  startswith p s ||
  match s with
  | "" => false
  | String _ s' => contains p s'
  end.

(** Number of positions of [s] at which [p] starts. *)
Fixpoint occurrences (p s : string) : nat :=
  (if startswith p s then 1 else 0) +
  match s with
  | "" => 0
  | String _ s' => occurrences p s'
  end.

(** [c in s] for a character [c]. *)
Fixpoint has_char (c : ascii) (s : string) : bool :=
  match s with
  | "" => false
  | String a s' => Ascii.eqb a c || has_char c s'
  end.

Fixpoint drop (n : nat) (s : string) : string :=
  match n, s with
  | 0, _ => s
  | S n', String _ s' => drop n' s'
  | S _, "" => ""
  end.

Fixpoint take (n : nat) (s : string) : string :=
  match n, s with
  | 0, _ => ""
  | S n', String c s' => String c (take n' s')
  | S _, "" => ""
  end.

(** [s.replace(old, new, 1)] for a non-empty [old]. *)
Fixpoint replace_first (old new s : string) : string :=
  if startswith old s then new ++ drop (length old) s
  else match s with
       | "" => ""
       | String c s' => String c (replace_first old new s')
       end.

(** [s.replace(c, new)] for a one-character [c]. *)
Fixpoint replace_char (c : ascii) (new s : string) : string :=
  match s with
  | "" => ""
  | String a s' =>
      if Ascii.eqb a c then new ++ replace_char c new s'
      else String a (replace_char c new s')
  end.

Fixpoint lstrip (s : string) : string :=
  match s with
  | String c s' => if is_space c then lstrip s' else s
  | "" => ""
  end.

(** Drops trailing white space: the result of [rstrip]. *)
Fixpoint rstrip (s : string) : string :=
  match s with
  | "" => ""
  | String c s' =>
      match rstrip s' with
      | "" => if is_space c then "" else String c ""
      | t => String c t
      end
  end.

(** [s.strip()] *)
Definition strip (s : string) : string := rstrip (lstrip s).

(** [sep.join(parts)] *)
Fixpoint join (sep : string) (parts : list string) : string :=
  match parts with
  | [] => ""
  | [x] => x
  | x :: rest => x ++ sep ++ join sep rest
  end.

(** ** Exceptions *)

Inductive exn : Type :=
| KeyError (key : string)
| ValueError (msg : string)
| IndexError
| OSError (path : string)
| NotModelled (what : string).

Inductive result (A : Type) : Type :=
| Ok (a : A)
| Raise (e : exn).
Arguments Ok {A} a.
Arguments Raise {A} e.

Definition bind {A B : Type} (r : result A) (k : A -> result B) : result B :=
  match r with
  | Ok a => k a
  | Raise e => Raise e
  end.

Notation "x <- r ;; k" := (bind r (fun x => k))
  (at level 61, r at next level, right associativity).

(** ** Regular expressions

    The four patterns of the program use literals, character classes,
    repetition of a class (greedy or lazy), concatenation and capture
    groups.  [run] lists the ways a pattern matches at the start of a
    string in the order a backtracking matcher tries them, so its head is
    the match [re] reports. *)

Inductive regex : Type :=
| Lit (s : string)
| Cls (cls : ascii -> bool)
| Rep (greedy : bool) (least : nat) (cls : ascii -> bool)
| Cat (r1 r2 : regex)
| Grp (r : regex).

(** Literal under [re.IGNORECASE]: the rest of [s] after [p]. *)
Fixpoint imatch (p s : string) : option string :=
  match p, s with
  | "", _ => Some s
  | String a p', String b s' =>
      if Ascii.eqb (lower_ascii a) (lower_ascii b) then imatch p' s' else None
  | String _ _, "" => None
  end.

(** Rests of [s] after at least [least] characters of the class. *)
Fixpoint reps (greedy : bool) (cls : ascii -> bool) (least : nat) (s : string)
  : list string :=
  let here := if (least =? 0)%nat then [s] else [] in
  match s with
  | String c s' =>
      if cls c then
        if greedy then reps greedy cls (pred least) s' ++ here
        else here ++ reps greedy cls (pred least) s'
      else here
  | "" => here
  end.

(** The text of [s] before its suffix [rest]. *)
Definition consumed (s rest : string) : string :=
  take (length s - length rest) s.

(** Captured groups and rest of the input, for each way to match. *)
Fixpoint run (r : regex) (s : string) : list (list string * string) :=
  match r with
  | Lit p => match imatch p s with Some rest => [([], rest)] | None => [] end
  | Cls cls =>
      match s with
      | String c s' => if cls c then [([], s')] else []
      | "" => []
      end
  | Rep greedy least cls => map (fun rest => ([], rest)) (reps greedy cls least s)
  | Cat r1 r2 =>
      flat_map (fun '(g1, s1) =>
                  map (fun '(g2, s2) => ((g1 ++ g2)%list, s2)) (run r2 s1))
               (run r1 s)
  | Grp r1 => map (fun '(g, rest) => (consumed s rest :: g, rest)) (run r1 s)
  end.

(** A match object: [m.group(0)] and [m.groups()]. *)
Record rmatch : Type := { group0 : string; groups : list string }.

(** [m.group(i)] for [1 <= i]. *)
Definition group (i : nat) (m : rmatch) : string := nth (pred i) (groups m) "".

Definition match_at (r : regex) (s : string) : option (rmatch * string) :=
  match run r s with
  | (g, rest) :: _ => Some ({| group0 := consumed s rest; groups := g |}, rest)
  | [] => None
  end.

(** [r.search(s)]: the text before the leftmost match, the match, the text
    after it. *)
Fixpoint search (r : regex) (s : string) : option (string * rmatch * string) :=
  match match_at r s with
  | Some (m, rest) => Some ("", m, rest)
  | None =>
      match s with
      | "" => None
      | String c s' =>
          match search r s' with
          | Some (pre, m, post) => Some (String c pre, m, post)
          | None => None
          end
      end
  end.

(** The pieces [r.sub] works on: text between matches, and matches. *)
Inductive segment : Type :=
| Text (s : string)
| Hit (m : rmatch).

Fixpoint scan_fuel (fuel : nat) (r : regex) (s : string) : list segment :=
  match fuel with
  | 0 => [Text s]
  | S fuel' =>
      match search r s with
      | None => [Text s]
      | Some (pre, m, post) => Text pre :: Hit m :: scan_fuel fuel' r post
      end
  end.

(** Non-overlapping matches left to right, as [finditer]; the patterns of
    the program match at least one character, so [length s] steps reach the
    end of [s] ([scan_fuel_enough] below). *)
Definition scan (r : regex) (s : string) : list segment :=
  scan_fuel (length s) r s.

Definition raw_segment (seg : segment) : string :=
  match seg with
  | Text s => s
  | Hit m => group0 m
  end.

Definition render_segment (repl : rmatch -> string) (seg : segment) : string :=
  match seg with
  | Text s => s
  | Hit m => repl m
  end.

(** [''.join(parts)] *)
Fixpoint glue (parts : list string) : string :=
  match parts with
  | [] => ""
  | x :: rest => x ++ glue rest
  end.

Definition raw (segs : list segment) : string :=
  glue (map raw_segment segs).

Definition render (repl : rmatch -> string) (segs : list segment) : string :=
  glue (map (render_segment repl) segs).

(** [r.sub(repl, s)] with a function [repl]. *)
Definition sub (r : regex) (repl : rmatch -> string) (s : string) : string :=
  render repl (scan r s).

(** Character classes of the patterns. *)
Definition not_gt (c : ascii) : bool := negb (Ascii.eqb c ">").
Definition is_quote (c : ascii) : bool := Ascii.eqb c "034" || Ascii.eqb c "'".
Definition not_quote (c : ascii) : bool := negb (is_quote c).
Definition any_char (c : ascii) : bool := true.

Fixpoint cat (rs : list regex) : regex :=
  match rs with
  | [] => Lit ""
  | [r] => r
  | r :: rs' => Cat r (cat rs')
  end.

Definition LINK_CSS_RE : regex :=
  cat [Lit "<link"; Rep true 1 is_space; Rep true 0 not_gt; Lit "rel=";
       Cls is_quote; Lit "stylesheet"; Cls is_quote; Rep true 0 not_gt;
       Lit "href="; Cls is_quote; Grp (Rep true 1 not_quote); Cls is_quote;
       Rep true 0 not_gt; Lit ">"].

Definition SCRIPT_SRC_RE : regex :=
  cat [Lit "<script"; Rep true 1 is_space; Rep true 0 not_gt; Lit "src=";
       Cls is_quote; Grp (Rep true 1 not_quote); Cls is_quote;
       Rep true 0 not_gt; Lit ">"; Rep true 0 is_space; Lit "</script>"].

Definition IMG_SRC_RE : regex :=
  cat [Grp (cat [Lit "<img"; Rep true 1 is_space; Rep true 0 not_gt;
                 Lit "src="; Cls is_quote]);
       Grp (Rep true 1 not_quote);
       Grp (cat [Cls is_quote; Rep true 0 not_gt; Lit ">"])].

Definition TITLE_RE : regex :=
  cat [Lit "<title>"; Grp (Rep false 0 any_char); Lit "</title>"].

(** ** Files *)

Inductive node : Type :=
| Absent
| Unreadable                      (* exists, but opening it fails: a directory, no permission *)
| File (content : list byte).

Definition FS : Type := string -> node.

(** [p.exists()] *)
Definition path_exists (fs : FS) (p : string) : bool :=
  match fs p with
  | Absent => false
  | _ => true
  end.

(** [out_path.write_text(text, encoding='utf-8')] *)
Definition write_file (fs : FS) (p : string) (text : string) : FS :=
  fun q => if String.eqb q p then File (list_byte_of_string text) else fs q.

(** What the host provides: [pathlib], [mimetypes] and [html.unescape]. *)
Class Platform : Type := {
  resolve : string -> string;                 (* [str(Path(p).resolve())] *)
  parent : string -> string;                  (* [p.parent] *)
  name : string -> string;                    (* [p.name] *)
  join_resolve : string -> string -> string;  (* [(base_dir / ref).resolve()] *)
  guess_type : string -> option string;       (* [mimetypes.guess_type(p)[0]] *)
  html_unescape : string -> string            (* [html.unescape] *)
}.

(** *** Decoding [utf-8] with [errors='ignore']

    The decoder keeps every well-formed sequence and skips the bytes of a
    malformed one: one byte for a bad start byte or a bad first
    continuation, the bytes read so far for a later bad continuation, and
    the whole tail for a sequence the end of the file cuts short. *)

Definition is_cont (b : byte) : bool :=
  (128 <=? Byte.to_N b)%N && (Byte.to_N b <? 192)%N.

(** Second byte out of range for the start byte of a three-byte sequence:
    an overlong form after [E0], a surrogate after [ED]. *)
Definition bad_second3 (b0 b1 : byte) : bool :=
  negb (is_cont b1) ||
  (if (Byte.to_N b1 <? 160)%N then (Byte.to_N b0 =? 224)%N
   else (Byte.to_N b0 =? 237)%N).

(** The same for a four-byte sequence: overlong after [F0], beyond
    [U+10FFFF] after [F4]. *)
Definition bad_second4 (b0 b1 : byte) : bool :=
  negb (is_cont b1) ||
  (if (Byte.to_N b1 <? 144)%N then (Byte.to_N b0 =? 240)%N
   else (Byte.to_N b0 =? 244)%N).

Fixpoint utf8_ignore (bs : list byte) : list byte :=
  match bs with
  | [] => []
  | b0 :: r0 =>
      let n0 := Byte.to_N b0 in
      if (n0 <? 128)%N then b0 :: utf8_ignore r0
      else if (n0 <? 194)%N then utf8_ignore r0
      else if (n0 <? 224)%N then
        match r0 with
        | [] => []
        | b1 :: r1 =>
            if is_cont b1 then b0 :: b1 :: utf8_ignore r1 else utf8_ignore r0
        end
      else if (n0 <? 240)%N then
        match r0 with
        | [] => []
        | b1 :: r1 =>
            if bad_second3 b0 b1 then utf8_ignore r0
            else match r1 with
                 | [] => []
                 | b2 :: r2 =>
                     if is_cont b2 then b0 :: b1 :: b2 :: utf8_ignore r2
                     else utf8_ignore r1
                 end
        end
      else if (n0 <? 245)%N then
        match r0 with
        | [] => []
        | b1 :: r1 =>
            if bad_second4 b0 b1 then utf8_ignore r0
            else match r1 with
                 | [] => []
                 | b2 :: r2 =>
                     if negb (is_cont b2) then utf8_ignore r1
                     else match r2 with
                          | [] => []
                          | b3 :: r3 =>
                              if is_cont b3
                              then b0 :: b1 :: b2 :: b3 :: utf8_ignore r3
                              else utf8_ignore r2
                          end
                 end
        end
      else utf8_ignore r0
  end.

(** Text mode with the default [newline=None]: [\r\n] and [\r] are read
    as [\n]. *)
Fixpoint universal_newlines (s : string) : string :=
  match s with
  | "" => ""
  | String c s' =>
      if Ascii.eqb c "013" then
        match s' with
        | String d s'' =>
            if Ascii.eqb d "010" then String "010" (universal_newlines s'')
            else String "010" (universal_newlines s')
        | "" => String "010" ""
        end
      else String c (universal_newlines s')
  end.

Definition decode_text (content : list byte) : string :=
  universal_newlines (string_of_list_byte (utf8_ignore content)).

Definition read_text (fs : FS) (p : string) : result string :=
  match fs p with
  | File content => Ok (decode_text content)
  | _ => Raise (OSError p)
  end.

Definition read_bytes (fs : FS) (p : string) : result (list byte) :=
  match fs p with
  | File content => Ok content
  | _ => Raise (OSError p)
  end.

(** *** [base64.b64encode] *)

Definition b64_char (n : N) : ascii :=
  if (n <? 26)%N then ascii_of_N (65 + n)
  else if (n <? 52)%N then ascii_of_N (97 + (n - 26))
  else if (n <? 62)%N then ascii_of_N (48 + (n - 52))
  else if (n =? 62)%N then "+"%char
  else "/"%char.

Fixpoint b64encode (bs : list byte) : string :=
  match bs with
  | [] => ""
  | [a] =>
      let n := (Byte.to_N a * 65536)%N in
      String (b64_char (n / 262144)) (String (b64_char ((n / 4096) mod 64)) "==")
  | [a; b] =>
      let n := (Byte.to_N a * 65536 + Byte.to_N b * 256)%N in
      String (b64_char (n / 262144))
        (String (b64_char ((n / 4096) mod 64))
           (String (b64_char ((n / 64) mod 64)) "="))
  | a :: b :: c :: rest =>
      let n := (Byte.to_N a * 65536 + Byte.to_N b * 256 + Byte.to_N c)%N in
      String (b64_char (n / 262144))
        (String (b64_char ((n / 4096) mod 64))
           (String (b64_char ((n / 64) mod 64))
              (String (b64_char (n mod 64)) (b64encode rest))))
  end.

(** The reading of a base64 payload, as whoever loads a [data:] address
    does it (RFC 4648 with padding): four letters give three bytes, and
    only the last group may be padded. *)
Definition b64_index (c : ascii) : option N :=
  let n := N_of_ascii c in
  if ((65 <=? n) && (n <=? 90))%N then Some (n - 65)%N
  else if ((97 <=? n) && (n <=? 122))%N then Some (n - 71)%N
  else if ((48 <=? n) && (n <=? 57))%N then Some (n + 4)%N
  else if (n =? 43)%N then Some 62%N
  else if (n =? 47)%N then Some 63%N
  else None.

Definition sextets (cs : list ascii) : option N :=
  fold_left (fun acc c =>
               match acc, b64_index c with
               | Some n, Some i => Some (n * 64 + i)%N
               | _, _ => None
               end) cs (Some 0%N).

Fixpoint b64decode (s : string) : option (list byte) :=
  match s with
  | "" => Some []
  | String c1 (String c2 (String c3 (String c4 rest))) =>
      if Ascii.eqb c4 "=" then
        match rest with
        | "" =>
            if Ascii.eqb c3 "=" then
              match sextets [c1; c2] with
              | Some n =>
                  match Byte.of_N (n / 16) with
                  | Some a => Some [a]
                  | None => None
                  end
              | None => None
              end
            else
              match sextets [c1; c2; c3] with
              | Some n =>
                  match Byte.of_N (n / 1024), Byte.of_N ((n / 4) mod 256) with
                  | Some a, Some b => Some [a; b]
                  | _, _ => None
                  end
              | None => None
              end
        | _ => None
        end
      else
        match sextets [c1; c2; c3; c4] with
        | Some n =>
            match Byte.of_N (n / 65536), Byte.of_N ((n / 256) mod 256),
                  Byte.of_N (n mod 256), b64decode rest with
            | Some a, Some b, Some c, Some bs => Some (a :: b :: c :: bs)
            | _, _, _, _ => None
            end
        | None => None
        end
  | _ => None
  end.

(** ** The program *)

Definition is_remote (url : string) : bool :=
  startswith "http://" url || startswith "https://" url || startswith "data:" url.

Section Program.

Context {host : Platform}.

(** [mime or 'application/octet-stream'] *)
Definition mime_of (p : string) : string :=
  match guess_type p with
  | Some "" => "application/octet-stream"
  | Some mime => mime
  | None => "application/octet-stream"
  end.

Definition to_data_uri (fs : FS) (p : string) : result string :=
  let mime := mime_of p in
  b <- read_bytes fs p ;;
  Ok ("data:" ++ mime ++ ";base64," ++ b64encode b).

Definition repl_link (fs : FS) (base_dir : string) (m : rmatch) : string :=
  let href := group 1 m in
  if is_remote href then group0 m
  else
    let css_path := join_resolve base_dir href in
    if path_exists fs css_path then
      match read_text fs css_path with
      | Ok css => "<style>" ++ nl ++ css ++ nl ++ "</style>"
      | Raise _ => group0 m
      end
    else group0 m.

Definition repl_script (fs : FS) (base_dir : string) (m : rmatch) : string :=
  let src := group 1 m in
  if is_remote src then group0 m
  else
    let js_path := join_resolve base_dir src in
    if path_exists fs js_path then
      match read_text fs js_path with
      | Ok js => "<script>" ++ nl ++ js ++ nl ++ "</script>"
      | Raise _ => group0 m
      end
    else group0 m.

Definition inline_css_and_js (fs : FS) (html_text base_dir : string) : string :=
  let html_text := sub LINK_CSS_RE (repl_link fs base_dir) html_text in
  let html_text := sub SCRIPT_SRC_RE (repl_script fs base_dir) html_text in
  html_text.

Definition repl_img (fs : FS) (base_dir : string) (m : rmatch) : string :=
  let pre := group 1 m in
  let src := group 2 m in
  let post := group 3 m in
  if is_remote src then group0 m
  else
    let img_path := join_resolve base_dir src in
    if path_exists fs img_path then
      match to_data_uri fs img_path with
      | Ok data => pre ++ data ++ post
      | Raise _ => group0 m
      end
    else group0 m.

Definition inline_images (fs : FS) (html_text base_dir : string) : string :=
  sub IMG_SRC_RE (repl_img fs base_dir) html_text.

(** [x or fallback] on strings *)
Definition or_else (x fallback : string) : string :=
  match x with
  | "" => fallback
  | _ => x
  end.

Definition extract_title (html_text fallback : string) : string :=
  match search TITLE_RE html_text with
  | Some (_, m, _) => or_else (strip (html_unescape (group 1 m))) fallback
  | None => fallback
  end.

Definition process_html (fs : FS) (input_path : string) : result (string * string) :=
  let base_dir := parent input_path in
  raw_text <- read_text fs input_path ;;
  let inlined := inline_css_and_js fs raw_text base_dir in
  let inlined := inline_images fs inlined base_dir in
  let title := extract_title inlined (name input_path) in
  Ok (title, inlined).

End Program.

(** ** The player shell

    [RUNNER_TEMPLATE], line by line: every line of the source ends in a
    line feed, and [dq] stands for the double quote. *)

Definition unlines (ls : list string) : string :=
  glue (map (fun l => l ++ nl) ls).

Definition RUNNER_TEMPLATE : string :=
  unlines [
    "<!doctype html>";
    "<html lang=" ++ dq ++ "en" ++ dq ++ ">";
    "<head>";
    "<meta charset=" ++ dq ++ "utf-8" ++ dq ++ " />";
    "<meta name=" ++ dq ++ "viewport" ++ dq ++ " content=" ++ dq ++ "width=device-width, initial-scale=1" ++ dq ++ " />";
    "<title>{title}</title>";
    "<style>";
    "  :root{ --bg:#0f1114; --panel:#16191f; --ink:#e9edf3; --muted:#9aa3ad; --rule:#2a3038; --accent:#e0523f }";
    "  *{box-sizing:border-box}";
    "  html,body{height:100%}";
    "  body{margin:0; background:var(--bg); color:var(--ink); font:16px/1.55 system-ui,-apple-system,Segoe UI,Roboto,Helvetica,Arial}";
    "  header{position:sticky; top:0; z-index:10; background:linear-gradient(180deg,rgba(22,25,31,.9),rgba(22,25,31,.75)); border-bottom:1px solid var(--rule); backdrop-filter: blur(6px)}";
    "  .bar{display:flex; align-items:center; gap:10px; padding:10px 14px}";
    "  .brand{font-weight:800}";
    "  .controls{margin-left:auto; display:flex; gap:8px; align-items:center}";
    "  button,select{appearance:none; border:1px solid var(--rule); background:var(--panel); color:var(--ink); border-radius:10px; padding:8px 10px; cursor:pointer}";
    "  main{height:calc(100% - 52px)}";
    "  .stage{height:100%; display:grid; place-items:center; padding:10px}";
    "  iframe{ width:min(1200px, 94vw); aspect-ratio:16/9; border-radius:16px; border:1px solid var(--rule); box-shadow:0 12px 36px rgba(0,0,0,.25); background:#000; }";
    "  .meta{color:var(--muted); font:600 12px/1 ui-monospace,Menlo,Consolas,monospace}";
    "</style>";
    "</head>";
    "<body>";
    "  <header>";
    "    <div class=" ++ dq ++ "bar" ++ dq ++ ">";
    "      <div class=" ++ dq ++ "brand" ++ dq ++ ">{title}</div>";
    "      <div class=" ++ dq ++ "controls" ++ dq ++ ">";
    "        <button id=" ++ dq ++ "prev" ++ dq ++ ">◀ Prev</button>";
    "        <button id=" ++ dq ++ "next" ++ dq ++ ">Next ▶</button>";
    "        <span id=" ++ dq ++ "ctr" ++ dq ++ " class=" ++ dq ++ "meta" ++ dq ++ "></span>";
    "        <button id=" ++ dq ++ "popout" ++ dq ++ ">Open in Window</button>";
    "      </div>";
    "    </div>";
    "  </header>";
    "  <main>";
    "    <div class=" ++ dq ++ "stage" ++ dq ++ "><iframe id=" ++ dq ++ "frame" ++ dq ++ "></iframe></div>";
    "  </main>";
    "  <script>";
    "    const DECKS = {decks_json}; // [{title, html}]";
    "    const $f = document.getElementById('frame');";
    "    const $ctr = document.getElementById('ctr');";
    "    const $prev = document.getElementById('prev');";
    "    const $next = document.getElementById('next');";
    "    const $pop = document.getElementById('popout');";
    "    let idx = 0; const total = DECKS.length;";
    "";
    "    function update(){";
    "      const d = DECKS[idx];";
    "      $f.srcdoc = d.html;";
    "      $ctr.textContent = `${idx+1} / ${total} — ${d.title}`;";
    "      history.replaceState(null, '', '#' + (idx+1));";
    "    }";
    "    function show(i){ idx = Math.max(0, Math.min(total-1, i)); update(); }";
    "    $prev.addEventListener('click', ()=> show(idx-1));";
    "    $next.addEventListener('click', ()=> show(idx+1));";
    "    window.addEventListener('keydown', (e)=>{";
    "      if(e.key==='ArrowLeft') show(idx-1);";
    "      if(e.key==='ArrowRight' || e.key===' ') show(idx+1);";
    "    });";
    "";
    "    // Pop out current deck into its own window";
    "    $pop.addEventListener('click', ()=>{";
    "      const d = DECKS[idx];";
    "      const w = window.open('', '_blank', 'noopener,noreferrer,width=1280,height=800');";
    "      if(w) { w.document.open(); w.document.write(d.html); w.document.close(); }";
    "    });";
    "";
    "    const start = Math.max(1, Math.min(total, parseInt(location.hash.replace('#','')||'1',10)))-1; show(start);";
    "  </script>";
    "</body>";
    "</html>"
  ].

(** ** [str.format] with keyword arguments

    The format string is read left to right.  Literal text is copied, a
    doubled brace stands for one brace, and a single opening brace starts
    a replacement field: a field name up to [}], [:] or [!], an optional
    conversion, an optional format spec up to the matching [}].  The field
    is looked up and rendered as soon as it is read, so the first error in
    reading order is the one raised.  The program passes keyword arguments
    of type [str] only; what lies beyond that (attribute and index lookup
    on a value, [!r], a non-empty format spec) is [NotModelled]. *)

Inductive fstate : Type :=
| InLiteral
| InName (acc : string)
| InIndex (acc : string)
| InSpec (field : string) (conv : option ascii) (depth : nat) (acc : string).

Definition snoc (s : string) (c : ascii) : string := s ++ String c "".

Definition is_digit (c : ascii) : bool :=
  ((48 <=? nat_of_ascii c) && (nat_of_ascii c <=? 57))%nat.

Fixpoint all_digits (s : string) : bool :=
  match s with
  | "" => true
  | String c s' => is_digit c && all_digits s'
  end.

(** The part of a field name before the first [.] or [[], and the rest. *)
Fixpoint split_first (s : string) : string * string :=
  match s with
  | "" => ("", "")
  | String c s' =>
      if Ascii.eqb c "." || Ascii.eqb c "[" then ("", s)
      else let '(a, b) := split_first s' in (String c a, b)
  end.

Fixpoint lookup (kw : list (string * string)) (key : string) : option string :=
  match kw with
  | [] => None
  | (k, v) :: kw' => if String.eqb k key then Some v else lookup kw' key
  end.

(** One replacement field.  With no positional arguments an empty or
    numeric first part has nothing to index; any other first part is a key
    of the keyword arguments. *)
Definition render_field (kw : list (string * string)) (field : string)
    (conv : option ascii) (spec : string) : result string :=
  let '(first, rest) := split_first field in
  value <- (if all_digits first then Raise IndexError
            else match lookup kw first with
                 | Some v => Ok v
                 | None => Raise (KeyError first)
                 end) ;;
  _ <- (match rest with
        | "" => Ok tt
        | _ => Raise (NotModelled "attribute or index lookup")
        end) ;;
  _ <- (match conv with
        | None => Ok tt
        | Some c =>
            if Ascii.eqb c "s" then Ok tt
            else if Ascii.eqb c "r" || Ascii.eqb c "a"
            then Raise (NotModelled "repr conversion")
            else Raise (ValueError "Unknown conversion specifier")
        end) ;;
  match spec with
  | "" => Ok value
  | _ => Raise (NotModelled "format spec")
  end.

Fixpoint format_from (kw : list (string * string)) (st : fstate)
    (out : string) (t : string) : result string :=
  match st with
  | InLiteral =>
      match t with
      | "" => Ok out
      | String c t' =>
          if Ascii.eqb c "{" then
            match t' with
            | "" => Raise (ValueError "Single '{' encountered in format string")
            | String d t'' =>
                if Ascii.eqb d "{" then format_from kw InLiteral (snoc out "{") t''
                else format_from kw (InName "") out t'
            end
          else if Ascii.eqb c "}" then
            match t' with
            | "" => Raise (ValueError "Single '}' encountered in format string")
            | String d t'' =>
                if Ascii.eqb d "}" then format_from kw InLiteral (snoc out "}") t''
                else Raise (ValueError "Single '}' encountered in format string")
            end
          else format_from kw InLiteral (snoc out c) t'
      end
  | InName acc =>
      match t with
      | "" => Raise (ValueError "expected '}' before end of string")
      | String c t' =>
          if Ascii.eqb c "{" then Raise (ValueError "unexpected '{' in field name")
          else if Ascii.eqb c "[" then format_from kw (InIndex (snoc acc c)) out t'
          else if Ascii.eqb c "}" then
            match render_field kw acc None "" with
            | Ok v => format_from kw InLiteral (out ++ v) t'
            | Raise e => Raise e
            end
          else if Ascii.eqb c ":" then format_from kw (InSpec acc None 1 "") out t'
          else if Ascii.eqb c "!" then
            match t' with
            | "" => Raise (ValueError "end of string while looking for conversion specifier")
            | String v t'' =>
                match t'' with
                | "" => Raise (ValueError "unmatched '{' in format spec")
                | String e t3 =>
                    if Ascii.eqb e "}" then
                      match render_field kw acc (Some v) "" with
                      | Ok r => format_from kw InLiteral (out ++ r) t3
                      | Raise x => Raise x
                      end
                    else if Ascii.eqb e ":" then
                      format_from kw (InSpec acc (Some v) 1 "") out t3
                    else Raise (ValueError "expected ':' after conversion specifier")
                end
            end
          else format_from kw (InName (snoc acc c)) out t'
      end
  | InIndex acc =>
      match t with
      | "" => Raise (ValueError "expected '}' before end of string")
      | String c t' =>
          if Ascii.eqb c "]" then format_from kw (InName (snoc acc c)) out t'
          else format_from kw (InIndex (snoc acc c)) out t'
      end
  | InSpec field conv depth acc =>
      match t with
      | "" => Raise (ValueError "unmatched '{' in format spec")
      | String c t' =>
          if Ascii.eqb c "{" then
            format_from kw (InSpec field conv (S depth) (snoc acc c)) out t'
          else if Ascii.eqb c "}" then
            match depth with
            | 1 =>
                match render_field kw field conv acc with
                | Ok v => format_from kw InLiteral (out ++ v) t'
                | Raise e => Raise e
                end
            | _ => format_from kw (InSpec field conv (pred depth) (snoc acc c)) out t'
            end
          else format_from kw (InSpec field conv depth (snoc acc c)) out t'
      end
  end.

(** [t.format(k1=v1, k2=v2, ...)] *)
Definition format (t : string) (kw : list (string * string)) : result string :=
  format_from kw InLiteral "" t.

(** [html.escape(s)], quotes included. *)
Definition html_escape (s : string) : string :=
  replace_char "'" "&#x27;"
    (replace_char "034" "&quot;"
       (replace_char ">" "&gt;"
          (replace_char "<" "&lt;"
             (replace_char "&" "&amp;" s)))).

(** ** The bundling run *)

Record deck : Type := { title : string; html : string }.

Inductive outcome : Type :=
| Done (stdout : string)          (* the run ends normally *)
| UsageError                      (* [argparse] rejects the command line *)
| SystemExit (msg : string)       (* [raise SystemExit(msg)] *)
| Uncaught (e : exn).             (* an exception reaches the top level *)

Definition meta_charset : string :=
  "<head>" ++ nl ++ "  <meta charset=" ++ dq ++ "utf-8" ++ dq ++ " />".

(** Lines 212-213 of [main]: the charset declaration of one deck. *)
Definition ensure_meta_charset (html_text : string) : string :=
  if negb (contains "<meta charset" (lower html_text))
  then replace_first "<head>" meta_charset html_text
  else html_text.

(** [js_string_escape], the local function of [main]. *)
Definition js_string_escape (s : string) : string :=
  replace_char "`" "\`" (replace_char "\" "\\" s).

(** One element of the list comprehension that builds [decks_js]. *)
Definition deck_entry (d : deck) : string :=
  "  {title: `" ++ js_string_escape (title d) ++
  "`, html: `" ++ js_string_escape (html d) ++ "`}".

Definition decks_js_of (decks : list deck) : string :=
  "[" ++ nl ++ join ("," ++ nl) (map deck_entry decks) ++ nl ++ "]".

Definition decimal (n : nat) : string :=
  DecimalString.NilEmpty.string_of_uint (Nat.to_uint n).

(** [decks[0]['title']] *)
Definition first_title (decks : list deck) : result string :=
  match decks with
  | d :: _ => Ok (title d)
  | [] => Raise IndexError
  end.

Definition program_title_of (decks : list deck) : result string :=
  t <- first_title decks ;;
  if (1 <? List.length decks)%nat
  then Ok ("Program — " ++ t ++ " (+" ++ decimal (List.length decks - 1) ++ ")")
  else Ok t.

Section Run.

Context {host : Platform}.

(** The first loop of [main]: the first input that does not exist. *)
Fixpoint first_missing (fs : FS) (inputs : list string) : option string :=
  match inputs with
  | [] => None
  | p :: rest => if path_exists fs p then first_missing fs rest else Some p
  end.

(** The body of the second loop of [main]. *)
Definition deck_of (fs : FS) (p : string) : result deck :=
  r <- process_html fs p ;;
  let '(t, html_text) := r in
  Ok {| title := t; html := ensure_meta_charset html_text |}.

(** The second loop of [main]: [decks.append] for each input in turn. *)
Fixpoint collect_decks (fs : FS) (decks : list deck) (inputs : list string)
  : result (list deck) :=
  match inputs with
  | [] => Ok decks
  | p :: rest =>
      d <- deck_of fs p ;;
      collect_decks fs (decks ++ [d])%list rest
  end.

(** Lines 208-230 of [main]: the keyword arguments that
    [RUNNER_TEMPLATE.format] is called with. *)
Definition template_fields (fs : FS) (inputs : list string)
  : result (list (string * string)) :=
  decks <- collect_decks fs [] inputs ;;
  program_title <- program_title_of decks ;;
  let decks_js := decks_js_of decks in
  Ok [("title", html_escape program_title); ("decks_json", decks_js)].

(** [main], after [argparse]: [output] is the value of [-o], [args] the
    positional arguments.  The result is the file system after the run and
    how the run ended. *)
Definition main (fs : FS) (output : string) (args : list string) : FS * outcome :=
  match args with
  | [] => (fs, UsageError)
  | _ =>
      let inputs := map resolve args in
      match first_missing fs inputs with
      | Some p => (fs, SystemExit ("Input not found: " ++ p))
      | None =>
          match
            fields <- template_fields fs inputs ;;
            format RUNNER_TEMPLATE fields
          with
          | Raise e => (fs, Uncaught e)
          | Ok out_html =>
              let out_path := resolve output in
              (write_file fs out_path out_html, Done ("Wrote " ++ out_path ++ nl))
          end
      end
  end.

End Run.

(** ** Template literals of the player script

    [DECKS] is written as a list of objects whose fields are template
    literals.  [template_cook] reads the characters after an opening
    backtick as the script engine does and gives the string value up to
    the point where the literal ends. *)

Inductive cooked : Type :=
| Closed (value rest : string)         (* closing backtick found: a plain string *)
| Substitution (value rest : string)   (* a dollar sign and brace: an expression follows *)
| Unterminated
| OtherEscape (c : ascii).             (* hexadecimal, code point and digit escapes *)

Definition prepend (c : ascii) (r : cooked) : cooked :=
  match r with
  | Closed v rest => Closed (String c v) rest
  | Substitution v rest => Substitution (String c v) rest
  | other => other
  end.

(** The character an escape of one character stands for. *)
Definition single_escape (c : ascii) : option ascii :=
  if Ascii.eqb c "n" then Some "010"%char
  else if Ascii.eqb c "t" then Some "009"%char
  else if Ascii.eqb c "r" then Some "013"%char
  else if Ascii.eqb c "b" then Some "008"%char
  else if Ascii.eqb c "f" then Some "012"%char
  else if Ascii.eqb c "v" then Some "011"%char
  else if Ascii.eqb c "x" || Ascii.eqb c "u" || is_digit c then None
  else Some c.

Fixpoint template_cook (s : string) : cooked :=
  match s with
  | "" => Unterminated
  | String c s' =>
      if Ascii.eqb c "`" then Closed "" s'
      else if Ascii.eqb c "$" then
        match s' with
        | String d s'' =>
            if Ascii.eqb d "{" then Substitution "" s''
            else prepend c (template_cook s')
        | "" => Unterminated
        end
      else if Ascii.eqb c "\" then
        match s' with
        | "" => Unterminated
        | String d s'' =>
            if Ascii.eqb d "010" then template_cook s''       (* line continuation *)
            else if Ascii.eqb d "013" then
              match s'' with
              | String e s3 =>
                  if Ascii.eqb e "010" then template_cook s3 else template_cook s''
              | "" => Unterminated
              end
            else match single_escape d with
                 | Some e => prepend e (template_cook s'')
                 | None => OtherEscape d
                 end
        end
      else if Ascii.eqb c "013" then
        match s' with
        | String d s'' =>
            if Ascii.eqb d "010" then prepend "010" (template_cook s'')
            else prepend "010" (template_cook s')
        | "" => Unterminated
        end
      else prepend c (template_cook s')
  end.

(** ** The inlining passes, uniformly

    The three passes differ in their pattern, in the group that holds the
    reference and in their replacement function. *)

Inductive pass : Type := StylesheetPass | ScriptPass | ImagePass.

Definition pattern_of (p : pass) : regex :=
  match p with
  | StylesheetPass => LINK_CSS_RE
  | ScriptPass => SCRIPT_SRC_RE
  | ImagePass => IMG_SRC_RE
  end.

(** The reference of a matched element: [href] or [src] in the source. *)
Definition reference_of (p : pass) (m : rmatch) : string :=
  match p with
  | StylesheetPass => group 1 m
  | ScriptPass => group 1 m
  | ImagePass => group 2 m
  end.

Definition replacement_of {host : Platform} (p : pass)
  : FS -> string -> rmatch -> string :=
  match p with
  | StylesheetPass => repl_link
  | ScriptPass => repl_script
  | ImagePass => repl_img
  end.

Definition run_pass {host : Platform} (p : pass) (fs : FS)
    (base_dir html_text : string) : string :=
  sub (pattern_of p) (replacement_of p fs base_dir) html_text.

(** No capture group inside. *)
Fixpoint no_groups (r : regex) : bool :=
  match r with
  | Lit _ | Cls _ | Rep _ _ _ => true
  | Cat r1 r2 => no_groups r1 && no_groups r2
  | Grp _ => false
  end.

(** Least number of characters a pattern matches. *)
Fixpoint min_len (r : regex) : nat :=
  match r with
  | Lit p => length p
  | Cls _ => 1
  | Rep _ least _ => least
  | Cat r1 r2 => min_len r1 + min_len r2
  | Grp r1 => min_len r1
  end.

(** ** Decoding with [errors='replace'], for comparison

    The same decoder, with the replacement character [U+FFFD] written for
    each malformed sequence instead of nothing. *)




(** Well-formed UTF-8. *)
Fixpoint utf8_valid (bs : list byte) : bool :=
  match bs with
  | [] => true
  | b0 :: r0 =>
      let n0 := Byte.to_N b0 in
      if (n0 <? 128)%N then utf8_valid r0
      else if (n0 <? 194)%N then false
      else if (n0 <? 224)%N then
        match r0 with
        | b1 :: r1 => is_cont b1 && utf8_valid r1
        | _ => false
        end
      else if (n0 <? 240)%N then
        match r0 with
        | b1 :: b2 :: r2 =>
            negb (bad_second3 b0 b1) && is_cont b2 && utf8_valid r2
        | _ => false
        end
      else if (n0 <? 245)%N then
        match r0 with
        | b1 :: b2 :: b3 :: r3 =>
            negb (bad_second4 b0 b1) && is_cont b2 && is_cont b3 && utf8_valid r3
        | _ => false
        end
      else false
  end.


(** ** A host and a file system for the examples

    Paths are POSIX paths below [/work], already normal; the texts have no
    character references. *)

Fixpoint has_slash (s : string) : bool :=
  match s with
  | "" => false
  | String c s' => Ascii.eqb c "/" || has_slash s'
  end.

Fixpoint base_name (s : string) : string :=
  match s with
  | "" => ""
  | String c s' =>
      if has_slash s' then base_name s'
      else if Ascii.eqb c "/" then s' else s
  end.

Fixpoint dir_name (s : string) : string :=
  match s with
  | "" => ""
  | String c s' => if has_slash s' then String c (dir_name s') else ""
  end.

Fixpoint endswith (suffix s : string) : bool :=
  String.eqb suffix s ||
  match s with
  | "" => false
  | String _ s' => endswith suffix s'
  end.

Definition posix_host : Platform := {|
  resolve := fun p => if startswith "/" p then p else "/work/" ++ p;
  parent := dir_name;
  name := base_name;
  join_resolve := fun base ref =>
    if startswith "/" ref then ref else base ++ "/" ++ ref;
  guess_type := fun p =>
    if endswith ".png" p then Some "image/png"
    else if endswith ".css" p then Some "text/css"
    else if endswith ".js" p then Some "text/javascript"
    else if endswith ".html" p then Some "text/html"
    else None;
  html_unescape := fun s => s
|}.

Definition demo_deck : string :=
  "<html><head><title>Deck</title>" ++
  "<link rel=" ++ dq ++ "stylesheet" ++ dq ++ " href=" ++ dq ++ "style.css" ++ dq ++ ">" ++
  "<link rel='stylesheet' href='https://cdn.example/x.css'>" ++
  "<link rel='stylesheet' href='missing.css'>" ++
  "</head><body><img src='logo.png'><img src='assets'>" ++
  "<script src='app.js'></script></body></html>".

Definition demo_fs : FS := fun p =>
  if String.eqb p "/work/deck.html" then File (list_byte_of_string demo_deck)
  else if String.eqb p "/work/style.css"
  then File (list_byte_of_string "body{color:red}")
  else if String.eqb p "/work/app.js"
  then File (list_byte_of_string "let n = 1;")
  else if String.eqb p "/work/logo.png" then File [x89; x50; x4e; x47]
  else if String.eqb p "/work/assets" then Unreadable
  else if String.eqb p "/work/second.html"
  then File (list_byte_of_string "<p>two</p>")
  else Absent.





Definition remote_link : string :=
  "<link rel='stylesheet' href='https://cdn.example/x.css'>".


Definition local_link : string :=
  "<link rel='stylesheet' href='style.css'>".

Definition local_img : string := "<img alt='logo' src='logo.png' width='8'>".

(** The match object of a scan that finds one element and nothing else. *)
Definition whole (element : string) (gs : list string) : rmatch :=
  {| group0 := element; groups := gs |}.

(** ** Proof steps shared by the decoder lemmas *)

(** Case analysis along the branches of the decoder. *)
Ltac decoder_cases :=
  repeat match goal with
         | |- context [if ?c then _ else _] => destruct c eqn:?
         | |- context [match ?l with [] => _ | _ :: _ => _ end] => destruct l
         end.



(** * Properties *)

(** ** Strings *)

Lemma append_nil_r (s : string) : s ++ "" = s.
Proof. induction s as [|c s IH]; simpl; [reflexivity | now rewrite IH]. Qed.

Lemma append_assoc (s t u : string) : (s ++ t) ++ u = s ++ (t ++ u).
Proof. induction s as [|c s IH]; simpl; [reflexivity | now rewrite IH]. Qed.

Lemma length_append (s t : string) : length (s ++ t) = length s + length t.
Proof. induction s as [|c s IH]; simpl; [reflexivity | now rewrite IH]. Qed.

Lemma take_append (s t : string) : take (length s) (s ++ t) = s.
Proof. induction s as [|c s IH]; simpl; [reflexivity | now rewrite IH]. Qed.

Lemma drop_append (s t : string) : drop (length s) (s ++ t) = t.
Proof. induction s as [|c s IH]; simpl; [reflexivity | exact IH]. Qed.

Lemma consumed_append (pre rest : string) : consumed (pre ++ rest) rest = pre.
Proof.
  unfold consumed. rewrite length_append.
  replace (length pre + length rest - length rest) with (length pre) by lia.
  apply take_append.
Qed.

Lemma lower_append (s t : string) : lower (s ++ t) = lower s ++ lower t.
Proof. induction s as [|c s IH]; simpl; [reflexivity | now rewrite IH]. Qed.

Lemma glue_app (l1 l2 : list string) : glue (l1 ++ l2) = glue l1 ++ glue l2.
Proof.
  induction l1 as [|x l1 IH]; simpl; [reflexivity|].
  now rewrite IH, append_assoc.
Qed.

Lemma startswith_append (p rest : string) : startswith p (p ++ rest) = true.
Proof.
  induction p as [|c p IH]; simpl; [reflexivity|].
  now rewrite Ascii.eqb_refl, IH.
Qed.

Lemma startswith_split (p s : string) :
  startswith p s = true -> exists rest, s = p ++ rest.
Proof.
  revert s; induction p as [|c p IH]; intros s H; simpl in *.
  - now exists s.
  - destruct s as [|d s]; [discriminate|].
    apply andb_true_iff in H as [Hc Hp].
    apply Ascii.eqb_eq in Hc; subst d.
    destruct (IH _ Hp) as [rest ->]. now exists rest.
Qed.

(** ** The matcher *)

Lemma imatch_split (p s rest : string) :
  imatch p s = Some rest ->
  exists pre, s = pre ++ rest /\ length pre = length p.
Proof.
  revert s; induction p as [|a p IH]; intros s H; simpl in H.
  - inversion H; subst. now exists "".
  - destruct s as [|b s]; [discriminate|].
    destruct (Ascii.eqb (lower_ascii a) (lower_ascii b)); [|discriminate].
    destruct (IH _ H) as (pre & -> & Hl).
    exists (String b pre); simpl; auto.
Qed.

Lemma reps_split (greedy : bool) (cls : ascii -> bool) (s : string) :
  forall least rest, In rest (reps greedy cls least s) ->
  exists pre, s = pre ++ rest /\ least <= length pre.
Proof.
  assert (Hhere : forall least (t rest : string),
             In rest (if (least =? 0)%nat then [t] else []) ->
             exists pre, t = pre ++ rest /\ least <= length pre).
  { intros least t rest H. destruct (Nat.eqb_spec least 0) as [->|_].
    - destruct H as [<-|[]]. exists ""; simpl; auto.
    - destruct H. }
  induction s as [|c s IH]; intros least rest H; simpl in H.
  - now apply Hhere.
  - destruct (cls c); [|now apply Hhere].
    assert (Hin : In rest (reps greedy cls (pred least) s) \/
                  In rest (if (least =? 0)%nat then [String c s] else [])).
    { destruct greedy; apply in_app_or in H; tauto. }
    destruct Hin as [Hin|Hin]; [|now apply Hhere].
    destruct (IH _ _ Hin) as (pre & -> & Hl).
    exists (String c pre); simpl; split; [reflexivity | lia].
Qed.

Lemma run_split (r : regex) :
  forall s g rest, In (g, rest) (run r s) ->
  exists pre, s = pre ++ rest /\ min_len r <= length pre.
Proof.
  induction r as [p|cls|greedy least cls|r1 IH1 r2 IH2|r1 IH1];
    intros s g rest H; simpl in H.
  - destruct (imatch p s) as [rest'|] eqn:E; [|destruct H].
    destruct H as [H|[]]; inversion H; subst.
    destruct (imatch_split _ _ E) as (pre & -> & Hl).
    exists pre; simpl; split; [reflexivity | lia].
  - destruct s as [|c s]; [destruct H|].
    destruct (cls c); [|destruct H].
    destruct H as [H|[]]; inversion H; subst.
    exists (String c ""); simpl; auto.
  - apply in_map_iff in H as (x & Hx & Hin). inversion Hx; subst.
    exact (reps_split _ _ _ _ _ Hin).
  - apply in_flat_map in H as ([g1 s1] & H1 & H2).
    apply in_map_iff in H2 as ([g2 s2] & Hx & H2). inversion Hx; subst.
    destruct (IH1 _ _ _ H1) as (pre1 & -> & Hl1).
    destruct (IH2 _ _ _ H2) as (pre2 & -> & Hl2).
    exists (pre1 ++ pre2); rewrite append_assoc, length_append; simpl.
    split; [reflexivity | lia].
  - apply in_map_iff in H as ([g1 rest1] & Hx & H1). inversion Hx; subst.
    exact (IH1 _ _ _ H1).
Qed.

Lemma match_at_split (r : regex) (s : string) (m : rmatch) (rest : string) :
  match_at r s = Some (m, rest) ->
  s = group0 m ++ rest /\ min_len r <= length (group0 m).
Proof.
  unfold match_at. destruct (run r s) as [|[g rest'] l] eqn:E; [discriminate|].
  intros H; inversion H; subst; simpl.
  assert (Hin : In (g, rest) (run r s)) by (rewrite E; now left).
  destruct (run_split _ _ _ _ Hin) as (pre & -> & Hl).
  now rewrite consumed_append.
Qed.

Lemma search_split (r : regex) (s pre : string) (m : rmatch) (post : string) :
  search r s = Some (pre, m, post) ->
  s = pre ++ group0 m ++ post /\ min_len r <= length (group0 m).
Proof.
  revert pre; induction s as [|c s IH]; intros pre H; simpl in H.
  - destruct (match_at r "") as [[m' rest]|] eqn:E; [|discriminate].
    inversion H; subst. exact (match_at_split _ _ E).
  - destruct (match_at r (String c s)) as [[m' rest]|] eqn:E.
    + inversion H; subst. exact (match_at_split _ _ E).
    + destruct (search r s) as [[[pre' m'] post']|]; [|discriminate].
      inversion H; subst.
      destruct (IH _ eq_refl) as [Hs Hl].
      split; [simpl; now rewrite <- Hs | exact Hl].
Qed.

Lemma raw_app (l1 l2 : list segment) : raw (l1 ++ l2) = raw l1 ++ raw l2.
Proof. unfold raw. now rewrite map_app, glue_app. Qed.

Lemma render_app (repl : rmatch -> string) (l1 l2 : list segment) :
  render repl (l1 ++ l2) = render repl l1 ++ render repl l2.
Proof. unfold render. now rewrite map_app, glue_app. Qed.

(** The pieces of a scan, put together again, are the text scanned. *)
Lemma scan_fuel_raw (r : regex) (fuel : nat) :
  forall s, raw (scan_fuel fuel r s) = s.
Proof.
  induction fuel as [|fuel IH]; intros s; simpl.
  - apply append_nil_r.
  - destruct (search r s) as [[[pre m] post]|] eqn:E.
    + destruct (search_split _ _ E) as [Hs _].
      change (pre ++ group0 m ++ raw (scan_fuel fuel r post) = s).
      now rewrite IH.
    + apply append_nil_r.
Qed.

Lemma scan_raw (r : regex) (s : string) : raw (scan r s) = s.
Proof. apply scan_fuel_raw. Qed.

(** A pattern that matches at least one character is scanned to the end
    of the text with [length s] steps: more steps change nothing. *)
Lemma scan_fuel_enough (r : regex) :
  0 < min_len r ->
  forall n k s, length s <= n -> length s <= k ->
  scan_fuel n r s = scan_fuel k r s.
Proof.
  intros Hpos.
  assert (Hshort : forall s pre m post,
             search r s = Some (pre, m, post) -> length post < length s).
  { intros s pre m post E. destruct (search_split _ _ E) as [Hs Hl].
    apply (f_equal length) in Hs. rewrite !length_append in Hs. lia. }
  induction n as [|n IH]; intros k s Hn Hk.
  - destruct k as [|k]; [reflexivity|]. simpl.
    destruct (search r s) as [[[pre m] post]|] eqn:E; [|reflexivity].
    apply Hshort in E. lia.
  - destruct k as [|k]; simpl.
    + destruct (search r s) as [[[pre m] post]|] eqn:E; [|reflexivity].
      apply Hshort in E. lia.
    + destruct (search r s) as [[[pre m] post]|] eqn:E; [|reflexivity].
      pose proof (Hshort _ _ _ _ E). do 2 f_equal. apply IH; lia.
Qed.

Lemma pattern_of_min_len (p : pass) : 0 < min_len (pattern_of p).
Proof. destruct p; simpl; lia. Qed.

(** The scan of a pass does not depend on the number of steps allowed,
    from [length s] on. *)
Lemma scan_pass_enough (p : pass) (s : string) (n : nat) :
  length s <= n -> scan_fuel n (pattern_of p) s = scan (pattern_of p) s.
Proof.
  intros H. unfold scan.
  apply scan_fuel_enough; [apply pattern_of_min_len | exact H | apply le_n].
Qed.

(** A match found by a scan sits in the text where the scan says, and the
    substitution puts its replacement at that place. *)
Lemma sub_at_match (r : regex) (repl : rmatch -> string) (text : string)
    (l1 : list segment) (m : rmatch) (l2 : list segment) :
  scan r text = (l1 ++ Hit m :: l2)%list ->
  text = raw l1 ++ group0 m ++ raw l2 /\
  sub r repl text = render repl l1 ++ repl m ++ render repl l2.
Proof.
  intros H. split.
  - rewrite <- (scan_raw r text), H, raw_app. reflexivity.
  - unfold sub. rewrite H, render_app. reflexivity.
Qed.

Lemma run_no_groups (r : regex) :
  no_groups r = true ->
  forall s g rest, In (g, rest) (run r s) -> g = [].
Proof.
  induction r as [p|cls|greedy least cls|r1 IH1 r2 IH2|r1 IH1];
    intros Hn s g rest H; simpl in *.
  - destruct (imatch p s); [|destruct H].
    destruct H as [H|[]]; now inversion H.
  - destruct s as [|c s]; [destruct H|].
    destruct (cls c); [|destruct H].
    destruct H as [H|[]]; now inversion H.
  - apply in_map_iff in H as (x & Hx & _). now inversion Hx.
  - apply andb_true_iff in Hn as [Hn1 Hn2].
    apply in_flat_map in H as ([g1 s1] & H1 & H2).
    apply in_map_iff in H2 as ([g2 s2] & Hx & H2). inversion Hx; subst.
    now rewrite (IH1 Hn1 _ _ _ H1), (IH2 Hn2 _ _ _ H2).
  - discriminate.
Qed.

(** A pattern made of three groups in a row captures three adjacent
    pieces of the matched text. *)
Lemma run_three_groups (a b c : regex) (s : string) (g : list string)
    (rest : string) :
  no_groups a = true -> no_groups b = true -> no_groups c = true ->
  In (g, rest) (run (Cat (Grp a) (Cat (Grp b) (Grp c))) s) ->
  exists x y z, g = [x; y; z] /\ s = x ++ y ++ z ++ rest.
Proof.
  intros Ha Hb Hc H. simpl in H.
  apply in_flat_map in H as ([g1 s1] & H1 & H2).
  apply in_map_iff in H1 as ([ga sa] & Hx & H1). inversion Hx; subst; clear Hx.
  apply in_map_iff in H2 as ([g2 s2] & Hx & H2). inversion Hx; subst; clear Hx.
  apply in_flat_map in H2 as ([g3 s3] & H3 & H4).
  apply in_map_iff in H3 as ([gb sb] & Hx & H3). inversion Hx; subst; clear Hx.
  apply in_map_iff in H4 as ([g4 s4] & Hx & H4). inversion Hx; subst; clear Hx.
  apply in_map_iff in H4 as ([gc sc] & Hx & H4). inversion Hx; subst; clear Hx.
  rewrite (run_no_groups _ Ha _ _ _ H1), (run_no_groups _ Hb _ _ _ H3),
    (run_no_groups _ Hc _ _ _ H4).
  destruct (run_split _ _ _ _ H1) as (x & -> & _).
  destruct (run_split _ _ _ _ H3) as (y & -> & _).
  destruct (run_split _ _ _ _ H4) as (z & -> & _).
  exists x, y, z. rewrite !consumed_append. split; reflexivity.
Qed.

Lemma search_found (r : regex) (s pre : string) (m : rmatch) (post : string) :
  search r s = Some (pre, m, post) ->
  exists s', match_at r s' = Some (m, post).
Proof.
  revert pre; induction s as [|c s IH]; intros pre H; simpl in H.
  - destruct (match_at r "") as [[m' rest]|] eqn:E; [|discriminate].
    inversion H; subst. now exists "".
  - destruct (match_at r (String c s)) as [[m' rest]|] eqn:E.
    + inversion H; subst. now exists (String c s).
    + destruct (search r s) as [[[pre' m'] post']|]; [|discriminate].
      inversion H; subst. exact (IH _ eq_refl).
Qed.

Lemma scan_fuel_found (r : regex) (m : rmatch) (fuel : nat) :
  forall s, In (Hit m) (scan_fuel fuel r s) ->
  exists s' rest, match_at r s' = Some (m, rest).
Proof.
  induction fuel as [|fuel IH]; intros s H; simpl in H.
  - destruct H as [H|[]]; discriminate.
  - destruct (search r s) as [[[pre m'] post]|] eqn:E.
    + destruct H as [H|[H|H]]; [discriminate| |exact (IH _ H)].
      inversion H; subst.
      destruct (search_found _ _ E) as [s' Hs']. now exists s', post.
    + destruct H as [H|[]]; discriminate.
Qed.

(** An element matched by the image pass is its three groups in a row:
    the tag up to the opening quote, the reference, the rest of the tag. *)
Lemma img_match_shape (text : string) (m : rmatch) :
  In (Hit m) (scan IMG_SRC_RE text) ->
  group0 m = group 1 m ++ group 2 m ++ group 3 m.
Proof.
  intros H. destruct (scan_fuel_found _ _ _ _ H) as (s' & rest & Hm).
  unfold match_at in Hm.
  destruct (run IMG_SRC_RE s') as [|[g rest'] l] eqn:E; [discriminate|].
  inversion Hm; subst; clear Hm.
  assert (Hin : In (g, rest) (run IMG_SRC_RE s')) by (rewrite E; now left).
  apply run_three_groups in Hin; [|reflexivity..].
  destruct Hin as (x & y & z & -> & ->).
  unfold group; simpl.
  rewrite <- !append_assoc, consumed_append, !append_assoc. reflexivity.
Qed.

Lemma is_remote_iff (url : string) :
  is_remote url = true <->
  (exists rest, url = "http://" ++ rest) \/
  (exists rest, url = "https://" ++ rest) \/
  (exists rest, url = "data:" ++ rest).
Proof.
  unfold is_remote. split.
  - intros H. apply orb_true_iff in H as [H|H];
      [apply orb_true_iff in H as [H|H]|];
      apply startswith_split in H; eauto.
  - intros [[rest ->]|[[rest ->]|[rest ->]]];
      rewrite ?startswith_append, ?orb_true_r; reflexivity.
Qed.

Lemma replacement_remote {host : Platform} (p : pass) (fs : FS)
    (base_dir : string) (m : rmatch) :
  is_remote (reference_of p m) = true ->
  replacement_of p fs base_dir m = group0 m.
Proof.
  destruct p; simpl; unfold repl_link, repl_script, repl_img;
    intros ->; reflexivity.
Qed.


(** ** Inlining: what a pass does at a matched element *)

(** C6, as the program has it.  The script pattern takes the reference
    from the last attribute of the tag whose name ends in [src], here
    [data-src], and the pass classifies that one: it is local, the file
    exists, and the whole element is replaced.  The remote reference of
    the element, in its [src], is gone from the output. *)
Lemma remote_reference_lost_with_element :
  is_remote "https://cdn.example/lib.js" = true /\
  scan SCRIPT_SRC_RE
    "<script src='https://cdn.example/lib.js' data-src='app.js'></script>" =
    [Text "";
     Hit (whole "<script src='https://cdn.example/lib.js' data-src='app.js'></script>"
            ["app.js"]);
     Text ""] /\
  run_pass (host := posix_host) ScriptPass demo_fs "/work"
    "<script src='https://cdn.example/lib.js' data-src='app.js'></script>" =
    "<script>" ++ nl ++ "let n = 1;" ++ nl ++ "</script>" /\
  contains "https://cdn.example/lib.js"
    (run_pass (host := posix_host) ScriptPass demo_fs "/work"
       "<script src='https://cdn.example/lib.js' data-src='app.js'></script>") =
    false.
Proof. repeat split; vm_compute; reflexivity. Qed.

(** What the guard of the replacement functions does give.  A reference
    is remote exactly when it starts, letter case included, with
    [http://], [https://] or [data:].  Whichever of the three passes
    matches an element, when the reference it captures there is remote it
    returns the element as its own replacement: the text of the element
    stands in the output of the pass where it stood in the input, between
    the rewritten text before and the rewritten text after. *)
Theorem remote_reference_untouched :
  forall (host : Platform),
  (forall url, is_remote url = true <->
     (exists rest, url = "http://" ++ rest) \/
     (exists rest, url = "https://" ++ rest) \/
     (exists rest, url = "data:" ++ rest)) /\
  is_remote "HTTP://example.org/a.css" = false /\
  is_remote "Data:text/css,a" = false /\
  (forall (p : pass) (fs : FS) (base_dir text : string)
          (l1 : list segment) (m : rmatch) (l2 : list segment),
     scan (pattern_of p) text = (l1 ++ Hit m :: l2)%list ->
     is_remote (reference_of p m) = true ->
     replacement_of p fs base_dir m = group0 m /\
     text = raw l1 ++ group0 m ++ raw l2 /\
     run_pass p fs base_dir text =
       render (replacement_of p fs base_dir) l1 ++ group0 m ++
       render (replacement_of p fs base_dir) l2).
Proof.
  intros host. split; [exact is_remote_iff|].
  split; [reflexivity|]. split; [reflexivity|].
  intros p fs base_dir text l1 m l2 Hscan Hremote.
  pose proof (replacement_remote p fs base_dir m Hremote) as Hrepl.
  destruct (sub_at_match (pattern_of p) (replacement_of p fs base_dir) _ _ _ _ Hscan)
    as [Htext Hsub].
  split; [exact Hrepl|]. split; [exact Htext|].
  unfold run_pass. rewrite Hsub, Hrepl. reflexivity.
Qed.

Lemma remote_reference_untouched_witness :
  is_remote "https://cdn.example/x.css" = true /\
  run_pass (host := posix_host) StylesheetPass demo_fs "/work" remote_link =
  remote_link.
Proof.
  split; [reflexivity|].
  destruct (remote_reference_untouched posix_host) as (_ & _ & _ & H).
  destruct (H StylesheetPass demo_fs "/work" remote_link [Text ""]
              (whole remote_link ["https://cdn.example/x.css"]) [Text ""])
    as (_ & _ & Hout); [reflexivity | reflexivity | exact Hout].
Defined.



(** C5 as it is written fails: the image pass rewrites the reference it
    captures and keeps the rest of the tag, so the tag can still name the
    file, here in [srcset]. *)
Lemma image_tag_still_names_file :
  demo_fs "/work/logo.png" = File [x89; x50; x4e; x47] /\
  scan IMG_SRC_RE "<img src='logo.png' srcset='logo.png 2x'>" =
    [Text "";
     Hit (whole "<img src='logo.png' srcset='logo.png 2x'>"
            ["<img src='"; "logo.png"; "' srcset='logo.png 2x'>"]);
     Text ""] /\
  run_pass (host := posix_host) ImagePass demo_fs "/work"
    "<img src='logo.png' srcset='logo.png 2x'>" =
    "<img src='data:image/png;base64,iVBORw==' srcset='logo.png 2x'>" /\
  contains "logo.png"
    (run_pass (host := posix_host) ImagePass demo_fs "/work"
       "<img src='logo.png' srcset='logo.png 2x'>") = true.
Proof. repeat split; vm_compute; reflexivity. Qed.

(** C5, amended.  When a pass matches an element whose reference is
    local and resolves to a file that can be read, the replacement is
    built from the content of the file and stands in the output of the
    pass where the element stood.  For a stylesheet it is a [style]
    element around the text of the file, for a script a [script] element
    around it, in place of the whole matched element.  For an image the
    matched element is its three groups in a row, and the replacement
    keeps the first and the third as they are and has, in place of the
    captured reference, [data:<mime>;base64,<payload>], which is a remote
    reference; [<mime>] is the type the file name is known by, or
    [application/octet-stream] when it is known by none, and [<payload>]
    is the base64 encoding of the bytes of the file. *)
Theorem readable_reference_embedded :
  forall (host : Platform) (p : pass) (fs : FS) (base_dir text : string)
         (l1 : list segment) (m : rmatch) (l2 : list segment)
         (content : list byte),
    scan (pattern_of p) text = (l1 ++ Hit m :: l2)%list ->
    is_remote (reference_of p m) = false ->
    fs (join_resolve base_dir (reference_of p m)) = File content ->
    text = raw l1 ++ group0 m ++ raw l2 /\
    run_pass p fs base_dir text =
      render (replacement_of p fs base_dir) l1 ++
      replacement_of p fs base_dir m ++
      render (replacement_of p fs base_dir) l2 /\
    match p with
    | StylesheetPass =>
        replacement_of p fs base_dir m =
        "<style>" ++ nl ++ decode_text content ++ nl ++ "</style>"
    | ScriptPass =>
        replacement_of p fs base_dir m =
        "<script>" ++ nl ++ decode_text content ++ nl ++ "</script>"
    | ImagePass =>
        let file := join_resolve base_dir (group 2 m) in
        let mime := match guess_type file with
                    | Some "" | None => "application/octet-stream"
                    | Some t => t
                    end in
        let uri := "data:" ++ mime ++ ";base64," ++ b64encode content in
        group0 m = group 1 m ++ group 2 m ++ group 3 m /\
        replacement_of p fs base_dir m = group 1 m ++ uri ++ group 3 m /\
        is_remote uri = true
    end.
Proof.
  intros host p fs base_dir text l1 m l2 content Hscan Hlocal Hfile.
  destruct (sub_at_match (pattern_of p) (replacement_of p fs base_dir) _ _ _ _ Hscan)
    as [Htext Hsub].
  split; [exact Htext|]. split; [exact Hsub|].
  destruct p; simpl in *.
  - unfold repl_link, path_exists, read_text. now rewrite Hlocal, Hfile.
  - unfold repl_script, path_exists, read_text. now rewrite Hlocal, Hfile.
  - split; [|split; [|reflexivity]].
    + apply img_match_shape with (text := text). rewrite Hscan.
      apply in_or_app; right; now left.
    + unfold repl_img, path_exists, to_data_uri, read_bytes, mime_of.
      rewrite Hlocal, Hfile. simpl.
      destruct (guess_type (join_resolve base_dir (group 2 m))) as [[|c t]|];
        reflexivity.
Qed.

Lemma readable_reference_embedded_witness :
  run_pass (host := posix_host) StylesheetPass demo_fs "/work" local_link =
    "<style>" ++ nl ++ "body{color:red}" ++ nl ++ "</style>" /\
  run_pass (host := posix_host) ImagePass demo_fs "/work" local_img =
    "<img alt='logo' src='data:image/png;base64,iVBORw==' width='8'>".
Proof.
  split.
  - destruct (@readable_reference_embedded posix_host StylesheetPass demo_fs
                "/work" local_link [Text ""]
                (whole local_link ["style.css"]) [Text ""]
                (list_byte_of_string "body{color:red}"))
      as (_ & Hout & Hrepl);
      [reflexivity | reflexivity | reflexivity |].
    rewrite Hout, Hrepl. reflexivity.
  - destruct (@readable_reference_embedded posix_host ImagePass demo_fs
                "/work" local_img [Text ""]
                (whole local_img ["<img alt='logo' src='"; "logo.png"; "' width='8'>"])
                [Text ""] [x89; x50; x4e; x47])
      as (_ & Hout & _ & Hrepl & _);
      [reflexivity | reflexivity | reflexivity |].
    rewrite Hout, Hrepl. reflexivity.
Defined.

(** ** The bundling run *)

Lemma first_missing_found {host : Platform} (fs : FS) (inputs : list string) :
  (exists p, In p inputs /\ path_exists fs p = false) ->
  exists l1 p l2,
    inputs = (l1 ++ p :: l2)%list /\
    Forall (fun q => path_exists fs q = true) l1 /\
    path_exists fs p = false /\
    first_missing fs inputs = Some p.
Proof.
  induction inputs as [|q inputs IH]; intros (p & Hin & Hp).
  - destruct Hin.
  - simpl. destruct (path_exists fs q) eqn:Eq.
    + destruct Hin as [->|Hin]; [congruence|].
      destruct IH as (l1 & p' & l2 & -> & Hall & Hp' & Hfirst); [now exists p|].
      exists (q :: l1), p', l2. repeat split; auto.
    + exists [], q, inputs. repeat split; auto.
Qed.

Lemma first_missing_none {host : Platform} (fs : FS) (inputs : list string) :
  (forall p, In p inputs -> path_exists fs p = true) ->
  first_missing fs inputs = None.
Proof.
  induction inputs as [|q inputs IH]; intros H; simpl; [reflexivity|].
  rewrite (H q (or_introl eq_refl)). apply IH. intros p Hp. apply H. now right.
Qed.

Lemma first_missing_ext {host : Platform} (fs fs' : FS) (inputs : list string) :
  (forall p, path_exists fs' p = path_exists fs p) ->
  first_missing fs' inputs = first_missing fs inputs.
Proof.
  intros H. induction inputs as [|q inputs IH]; simpl; [reflexivity|].
  now rewrite H, IH.
Qed.

(** C3. When one of the inputs does not exist, the run ends in the first
    loop with [SystemExit]; the message names the first such input, as
    resolved.  The file system after the run is the one before it, and
    the outcome is the same on any file system with the same existing
    paths: no file has been read. *)
Theorem missing_input_aborts :
  forall (host : Platform) (fs : FS) (output : string) (args : list string),
    (exists a, In a args /\ path_exists fs (resolve a) = false) ->
    exists l1 a l2,
      args = (l1 ++ a :: l2)%list /\
      Forall (fun b => path_exists fs (resolve b) = true) l1 /\
      path_exists fs (resolve a) = false /\
      main fs output args = (fs, SystemExit ("Input not found: " ++ resolve a)) /\
      forall fs', (forall p, path_exists fs' p = path_exists fs p) ->
        main fs' output args =
        (fs', SystemExit ("Input not found: " ++ resolve a)).
Proof.
  intros host fs output args (a & Hin & Ha).
  destruct (first_missing_found fs (map resolve args)) as (m1 & p & m2 & Hsplit & Hall & Hp & Hfirst).
  { exists (resolve a). split; [now apply in_map|exact Ha]. }
  apply map_eq_app in Hsplit as (l1 & l2' & -> & <- & Hrest).
  destruct l2' as [|b l2]; [discriminate|]. simpl in Hrest.
  inversion Hrest; subst; clear Hrest.
  exists l1, b, l2. split; [reflexivity|].
  split. { apply Forall_map in Hall. exact Hall. }
  split; [exact Hp|].
  assert (Hne : (l1 ++ b :: l2)%list <> []) by (destruct l1; discriminate).
  assert (Hmain : forall fs', first_missing fs' (map resolve (l1 ++ b :: l2)) = Some (resolve b) ->
            main fs' output (l1 ++ b :: l2) =
            (fs', SystemExit ("Input not found: " ++ resolve b))).
  { intros fs' H. unfold main. destruct (l1 ++ b :: l2)%list eqn:E; [congruence|].
    now rewrite H. }
  split; [now apply Hmain|].
  intros fs' Hsame. apply Hmain. now rewrite (first_missing_ext _ _ _ Hsame).
Qed.

Lemma missing_input_aborts_witness :
  main (host := posix_host) demo_fs "out.html"
    ["deck.html"; "nope.html"; "second.html"] =
  (demo_fs, SystemExit "Input not found: /work/nope.html").
Proof.
  destruct (missing_input_aborts posix_host demo_fs "out.html"
              ["deck.html"; "nope.html"; "second.html"])
    as (l1 & a & l2 & Hargs & Hall & Ha & Hmain & _).
  { exists "nope.html". split; [simpl; tauto | reflexivity]. }
  destruct l1 as [|x l1]; simpl in Hargs.
  - inversion Hargs; subst. discriminate Ha.
  - destruct l1 as [|y l1]; simpl in Hargs.
    + inversion Hargs; subst. exact Hmain.
    + destruct l1 as [|z l1]; simpl in Hargs.
      * inversion Hargs; subst. discriminate Ha.
      * exfalso. destruct l1; discriminate Hargs.
Defined.

(** The shell cannot be filled in: its style sheet and script have
    braces of their own, and the first of them opens a replacement field
    named [ --bg], which is no keyword argument. *)
Lemma format_runner_template (t d : string) :
  format RUNNER_TEMPLATE [("title", t); ("decks_json", d)] =
  Raise (KeyError " --bg").
Proof. vm_compute. reflexivity. Qed.

Lemma deck_of_file {host : Platform} (fs : FS) (p : string) (content : list byte) :
  fs p = File content -> exists d, deck_of fs p = Ok d.
Proof.
  intros H. unfold deck_of, process_html, read_text. rewrite H. simpl.
  eexists; reflexivity.
Qed.


Lemma collect_decks_files {host : Platform} (fs : FS) (inputs : list string) :
  (forall p, In p inputs -> exists content, fs p = File content) ->
  forall acc, exists ds,
    collect_decks fs acc inputs = Ok (acc ++ ds)%list /\
    List.length ds = List.length inputs.
Proof.
  induction inputs as [|p inputs IH]; intros H acc; simpl.
  - exists []. now rewrite app_nil_r.
  - destruct (H p (or_introl eq_refl)) as [content Hp].
    destruct (deck_of_file fs p Hp) as [d Hd]. rewrite Hd. simpl.
    destruct (IH (fun q Hq => H q (or_intror Hq)) (acc ++ [d])%list)
      as (ds & Hds & Hlen).
    exists (d :: ds). rewrite Hds, <- app_assoc. simpl. auto.
Qed.

(** C2, as the program has it.  When every input exists the run still
    never ends normally and never writes: the file system is left as it
    was and the outcome is an uncaught exception.  When moreover every
    input is a file that can be read, the exception is the [KeyError]
    that [RUNNER_TEMPLATE.format] raises. *)
Theorem bundling_run_never_completes :
  forall (host : Platform) (fs : FS) (output : string) (args : list string),
    args <> [] ->
    (forall a, In a args -> path_exists fs (resolve a) = true) ->
    (exists e, main fs output args = (fs, Uncaught e)) /\
    ((forall a, In a args -> exists content, fs (resolve a) = File content) ->
     main fs output args = (fs, Uncaught (KeyError " --bg"))).
Proof.
  intros host fs output args Hne Hall.
  assert (Hfirst : first_missing fs (map resolve args) = None).
  { apply first_missing_none. intros p Hp.
    apply in_map_iff in Hp as (a & <- & Ha). now apply Hall. }
  unfold main, template_fields. destruct args as [|a args]; [congruence|].
  rewrite Hfirst. split.
  - destruct (collect_decks fs [] (map resolve (a :: args))) as [decks|e];
      cbn [bind]; [|now exists e].
    destruct (program_title_of decks) as [t|e]; cbn [bind]; [|now exists e].
    rewrite format_runner_template. now eexists.
  - intros Hfiles.
    destruct (collect_decks_files fs (map resolve (a :: args))) with (acc := @nil deck)
      as (ds & Hds & Hlen).
    { intros p Hp. apply in_map_iff in Hp as (b & <- & Hb). now apply Hfiles. }
    rewrite Hds. cbn [app bind]. destruct ds as [|d ds]; [discriminate Hlen|].
    unfold program_title_of, first_title. cbn [bind].
    destruct (1 <? List.length (d :: ds))%nat; cbn [bind];
      now rewrite format_runner_template.
Qed.

Lemma bundling_run_never_completes_witness :
  main (host := posix_host) demo_fs "out.html" ["deck.html"; "second.html"] =
  (demo_fs, Uncaught (KeyError " --bg")).
Proof.
  destruct (bundling_run_never_completes posix_host demo_fs "out.html"
              (args := ["deck.html"; "second.html"])) as [_ H].
  - discriminate.
  - intros a [<-|[<-|[]]]; reflexivity.
  - apply H. intros a [<-|[<-|[]]]; eexists; reflexivity.
Defined.






(** ** Searching a text for a fixed string *)

Lemma contains_occurrences (p s : string) :
  contains p s = false <-> occurrences p s = 0.
Proof.
  induction s as [|c s IH]; simpl.
  - destruct (startswith p ""); simpl; split; intros H; congruence || lia.
  - destruct (startswith p (String c s)); simpl.
    + split; intros H; [discriminate | lia].
    + exact IH.
Qed.

Lemma contains_append_r (p a b : string) :
  contains p b = true -> contains p (a ++ b) = true.
Proof.
  intros H. induction a as [|c a IH]; simpl; [exact H|].
  rewrite IH. apply orb_true_r.
Qed.

Lemma startswith_prefix (p s t : string) :
  startswith p s = true -> startswith p (s ++ t) = true.
Proof.
  revert s; induction p as [|a p IH]; intros s H; [reflexivity|].
  destruct s as [|b s]; [discriminate|]. simpl in *.
  apply andb_true_iff in H as [-> H]. simpl. now apply IH.
Qed.

Lemma contains_append_l (p a b : string) :
  contains p a = true -> contains p (a ++ b) = true.
Proof.
  induction a as [|c a IH]; simpl; intros H.
  - destruct p; [|discriminate]. destruct b; reflexivity.
  - apply orb_true_iff in H as [H|H].
    + change (String c (a ++ b)) with (String c a ++ b).
      now rewrite (startswith_prefix _ _ b H).
    + rewrite (IH H). apply orb_true_r.
Qed.

(** A text without [p] has no suffix that starts with [p]. *)
Lemma contains_false_suffix (p a b : string) :
  contains p (a ++ b) = false -> startswith p b = false.
Proof.
  induction a as [|c a IH]; simpl; intros H.
  - destruct b; simpl in H; now apply orb_false_iff in H as [H _].
  - apply orb_false_iff in H as [_ H]. exact (IH H).
Qed.

(** A string without the character [c] cannot start across a [c]. *)
Lemma startswith_cut (c : ascii) (q u x : string) :
  has_char c q = false ->
  startswith q (u ++ String c x) = startswith q u.
Proof.
  revert u; induction q as [|d q IH]; intros u H; [now destruct u|].
  simpl in H. apply orb_false_iff in H as [Hd Hq].
  destruct u as [|b u]; simpl.
  - now rewrite Hd.
  - now rewrite IH.
Qed.

(** A [c] that [p] does not have splits the count of [p]. *)
Lemma occurrences_barrier (c : ascii) (p a x : string) :
  p <> "" -> has_char c p = false ->
  occurrences p (a ++ String c x) =
  occurrences p (a ++ String c "") + occurrences p x.
Proof.
  intros Hne Hc.
  assert (Hc0 : forall y, startswith p (String c y) = false).
  { intros y. destruct p as [|d p]; [congruence|]. simpl in *.
    apply orb_false_iff in Hc as [-> _]. reflexivity. }
  assert (Hnil : startswith p "" = false)
    by (destruct p; [congruence | reflexivity]).
  induction a as [|b a IH].
  - simpl append. cbn [occurrences]. rewrite !Hc0, Hnil. reflexivity.
  - change (String b a ++ String c x) with (String b (a ++ String c x)).
    change (String b a ++ String c "") with (String b (a ++ String c "")).
    cbn [occurrences]. rewrite IH.
    change (String b (a ++ String c x)) with (String b a ++ String c x).
    change (String b (a ++ String c "")) with (String b a ++ String c "").
    rewrite !(startswith_cut c p (String b a) _ Hc). lia.
Qed.

(** [replace_first] rewrites the leftmost occurrence and nothing else. *)
Lemma replace_first_found (old new s : string) :
  contains old s = true ->
  exists pre post,
    s = pre ++ old ++ post /\
    (forall pre' post', s = pre' ++ old ++ post' -> length pre <= length pre') /\
    replace_first old new s = pre ++ new ++ post.
Proof.
  induction s as [|c s IH]; intros H.
  - destruct old as [|d old]; [|discriminate H].
    exists "", "". simpl. rewrite append_nil_r.
    split; [reflexivity|]. split; [intros; lia | reflexivity].
  - simpl in H. simpl replace_first.
    destruct (startswith old (String c s)) eqn:E.
    + destruct (startswith_split _ _ E) as [rest Hs].
      exists "", rest. simpl. split; [exact Hs|]. split; [intros; lia|].
      rewrite Hs. now rewrite drop_append.
    + simpl in H. destruct (IH H) as (pre & post & Hs & Hleft & Hrep).
      exists (String c pre), post. simpl. rewrite Hrep, <- Hs.
      split; [reflexivity|]. split; [|reflexivity].
      intros pre' post' Hs'. destruct pre' as [|c' pre'].
      * simpl in Hs'. rewrite Hs', startswith_append in E. discriminate.
      * simpl in Hs'. inversion Hs'; subst c'.
        simpl. apply le_n_S. eapply Hleft. eassumption.
Qed.

Lemma replace_first_absent (old new s : string) :
  contains old s = false -> replace_first old new s = s.
Proof.
  induction s as [|c s IH]; simpl; intros H;
    apply orb_false_iff in H as [-> H]; [reflexivity|].
  now rewrite IH.
Qed.

(** ** The charset declaration *)

Lemma occurrences_after_insertion (pre post : string) :
  occurrences "<meta charset" (lower (pre ++ "<head>" ++ post)) = 0 ->
  occurrences "<meta charset" (lower (pre ++ meta_charset ++ post)) = 1.
Proof.
  intros H.
  assert (E1 : lower (pre ++ "<head>" ++ post) =
               (lower pre ++ "<head") ++ String ">" (lower post)).
  { rewrite lower_append, append_assoc. reflexivity. }
  assert (E2 : lower (pre ++ meta_charset ++ post) =
               (lower pre ++ "<head") ++
               String ">" ((nl ++ "  <meta charset=" ++ dq ++ "utf-8" ++ dq ++ " /") ++
                           String ">" (lower post))).
  { rewrite lower_append, append_assoc. reflexivity. }
  rewrite E1, occurrences_barrier in H by (discriminate || reflexivity).
  rewrite E2, occurrences_barrier by (discriminate || reflexivity).
  rewrite (@occurrences_barrier ">" "<meta charset" _ (lower post))
    by (discriminate || reflexivity).
  replace (occurrences "<meta charset"
             ((nl ++ "  <meta charset=" ++ dq ++ "utf-8" ++ dq ++ " /") ++
              String ">" "")) with 1 by reflexivity.
  lia.
Qed.




(** ** Escaping for the template literals *)

Lemma js_string_escape_nil : js_string_escape "" = "".
Proof. reflexivity. Qed.

Lemma js_string_escape_cons (c : ascii) (s : string) :
  js_string_escape (String c s) =
  (if Ascii.eqb c "\" then "\\"
   else if Ascii.eqb c "`" then "\`"
   else String c "") ++ js_string_escape s.
Proof.
  unfold js_string_escape. simpl.
  destruct (Ascii.eqb_spec c "\") as [->|Hb]; [reflexivity|].
  simpl. destruct (Ascii.eqb c "`"); reflexivity.
Qed.

Lemma template_cook_cons (c : ascii) (s' : string) :
  template_cook (String c s') =
  if Ascii.eqb c "`" then Closed "" s'
  else if Ascii.eqb c "$" then
    match s' with
    | String d s'' =>
        if Ascii.eqb d "{" then Substitution "" s''
        else prepend c (template_cook s')
    | "" => Unterminated
    end
  else if Ascii.eqb c "\" then
    match s' with
    | "" => Unterminated
    | String d s'' =>
        if Ascii.eqb d "010" then template_cook s''
        else if Ascii.eqb d "013" then
          match s'' with
          | String e s3 =>
              if Ascii.eqb e "010" then template_cook s3 else template_cook s''
          | "" => Unterminated
          end
        else match single_escape d with
             | Some e => prepend e (template_cook s'')
             | None => OtherEscape d
             end
    end
  else if Ascii.eqb c "013" then
    match s' with
    | String d s'' =>
        if Ascii.eqb d "010" then prepend "010" (template_cook s'')
        else prepend "010" (template_cook s')
    | "" => Unterminated
    end
  else prepend c (template_cook s').
Proof. reflexivity. Qed.

(** What the escaped text, followed by the closing backtick, starts
    with: never a brace that the text does not start with. *)
Lemma escaped_head (s rest : string) :
  exists d x,
    js_string_escape s ++ String "`" rest = String d x /\
    (Ascii.eqb d "{" = true -> startswith "{" s = true).
Proof.
  destruct s as [|c s].
  - exists "`"%char, rest. split; [reflexivity | discriminate].
  - rewrite js_string_escape_cons.
    destruct (Ascii.eqb c "\") eqn:Eb;
      [eexists _, _; split; [reflexivity | discriminate]|].
    destruct (Ascii.eqb c "`") eqn:Et;
      [eexists _, _; split; [reflexivity | discriminate]|].
    eexists _, _; split; [reflexivity|].
    intros H. apply Ascii.eqb_eq in H. subst c. reflexivity.
Qed.

(** An escaped backslash or backtick is read back as the character. *)
Lemma template_cook_escaped (c : ascii) (x : string) :
  Ascii.eqb c "\" = true \/ Ascii.eqb c "`" = true ->
  template_cook (String "\" (String c x)) = prepend c (template_cook x).
Proof.
  intros [H|H]; apply Ascii.eqb_eq in H; subst c; reflexivity.
Qed.

(** Text without a dollar sign before a brace and without a carriage
    return comes back as it was. *)
Lemma js_string_escape_round_trip (s rest : string) :
  contains "${" s = false ->
  has_char "013" s = false ->
  template_cook (js_string_escape s ++ String "`" rest) = Closed s rest.
Proof.
  induction s as [|c s IH]; intros Hsub Hcr; [reflexivity|].
  change (contains "${" (String c s))
    with (startswith "${" (String c s) || contains "${" s) in Hsub.
  change (has_char "013" (String c s))
    with (Ascii.eqb c "013" || has_char "013" s) in Hcr.
  apply orb_false_iff in Hsub as [Hhere Hsub].
  apply orb_false_iff in Hcr as [Hc Hcr].
  specialize (IH Hsub Hcr).
  rewrite js_string_escape_cons.
  destruct (Ascii.eqb c "\") eqn:Eb.
  { change (("\\" ++ js_string_escape s) ++ String "`" rest)
      with (String "\" (String "\" (js_string_escape s ++ String "`" rest))).
    apply Ascii.eqb_eq in Eb; subst c.
    rewrite template_cook_escaped by (left; reflexivity). now rewrite IH. }
  destruct (Ascii.eqb c "`") eqn:Et.
  { change (("\`" ++ js_string_escape s) ++ String "`" rest)
      with (String "\" (String "`" (js_string_escape s ++ String "`" rest))).
    apply Ascii.eqb_eq in Et; subst c.
    rewrite template_cook_escaped by (right; reflexivity). now rewrite IH. }
  change ((String c "" ++ js_string_escape s) ++ String "`" rest)
    with (String c (js_string_escape s ++ String "`" rest)).
  rewrite template_cook_cons, Et, Eb, Hc.
  destruct (Ascii.eqb c "$") eqn:Ed; [|now rewrite IH].
  destruct (escaped_head s rest) as (d & x & Hx & Hd).
  rewrite Hx in IH |- *.
  destruct (Ascii.eqb d "{") eqn:Ebrace; [|now rewrite IH].
  apply Ascii.eqb_eq in Ed; subst c.
  destruct s as [|e s]; [discriminate (Hd eq_refl)|].
  specialize (Hd eq_refl). simpl in Hd, Hhere.
  rewrite andb_true_r in Hd. rewrite Hd in Hhere. discriminate.
Qed.

Lemma prepend_substitution (c : ascii) (r : cooked) :
  (exists v x, r = Substitution v x) <->
  (exists v x, prepend c r = Substitution v x).
Proof.
  split.
  - intros (v & x & ->). now eexists _, _.
  - destruct r; simpl; intros (v & x & H); try discriminate. now eexists _, _.
Qed.

(** C1, as the program has it.  The escaping leaves a dollar sign before
    a brace as it is, and the script engine reads the two as the start of
    an expression: a title or content with [${] in it never comes back as
    a plain string, so never as itself. *)
Theorem js_string_escape_misses_substitution :
  forall s rest : string,
    contains "${" s = true ->
    (exists v x, template_cook (js_string_escape s ++ String "`" rest) =
                 Substitution v x) /\
    template_cook (js_string_escape s ++ String "`" rest) <> Closed s rest.
Proof.
  assert (Hmain : forall s rest, contains "${" s = true ->
            exists v x, template_cook (js_string_escape s ++ String "`" rest) =
                        Substitution v x).
  { induction s as [|c s IH]; intros rest H; [discriminate|].
    rewrite js_string_escape_cons.
    change (contains "${" (String c s))
      with (startswith "${" (String c s) || contains "${" s) in H.
    apply orb_true_iff in H as [H|H].
    - apply startswith_split in H as [r Hr]. inversion Hr; subst.
      rewrite js_string_escape_cons. eexists _, _. reflexivity.
    - specialize (IH rest H).
      destruct (Ascii.eqb c "\") eqn:Eb.
      { change (("\\" ++ js_string_escape s) ++ String "`" rest)
          with (String "\" (String "\" (js_string_escape s ++ String "`" rest))).
        rewrite template_cook_escaped by (left; reflexivity).
        now apply prepend_substitution. }
      destruct (Ascii.eqb c "`") eqn:Et.
      { change (("\`" ++ js_string_escape s) ++ String "`" rest)
          with (String "\" (String "`" (js_string_escape s ++ String "`" rest))).
        rewrite template_cook_escaped by (right; reflexivity).
        now apply prepend_substitution. }
      change ((String c "" ++ js_string_escape s) ++ String "`" rest)
        with (String c (js_string_escape s ++ String "`" rest)).
      rewrite template_cook_cons, Et, Eb.
      destruct (escaped_head s rest) as (d & x & Hx & _).
      rewrite Hx in *.
      destruct (Ascii.eqb c "$").
      { destruct (Ascii.eqb d "{"); [now eexists _, _|].
        now apply prepend_substitution. }
      destruct (Ascii.eqb c "013"); [|now apply prepend_substitution].
      destruct (Ascii.eqb d "010") eqn:El; [|now apply prepend_substitution].
      apply prepend_substitution.
      apply Ascii.eqb_eq in El; subst d.
      rewrite template_cook_cons in IH. simpl in IH.
      now apply prepend_substitution in IH. }
  intros s rest H. split; [now apply Hmain|].
  destruct (Hmain s rest H) as (v & x & ->). discriminate.
Qed.

Lemma js_string_escape_misses_substitution_witness :
  template_cook (js_string_escape "<b>${title}</b>" ++ String "`" ", html: `") =
    Substitution "<b>" "title}</b>`, html: `" /\
  template_cook (js_string_escape "<b>${title}</b>" ++ String "`" ", html: `") <>
    Closed "<b>${title}</b>" ", html: `".
Proof.
  destruct (js_string_escape_misses_substitution "<b>${title}</b>" ", html: `")
    as [_ H]; [reflexivity|].
  split; [reflexivity | exact H].
Defined.

Lemma js_string_escape_append (a b : string) :
  js_string_escape (a ++ b) = js_string_escape a ++ js_string_escape b.
Proof.
  induction a as [|c a IH]; [reflexivity|].
  change (String c a ++ b) with (String c (a ++ b)).
  now rewrite !js_string_escape_cons, IH, append_assoc.
Qed.

Lemma contains_split (p s : string) :
  contains p s = true -> exists a b, s = a ++ p ++ b.
Proof.
  intros H. destruct (replace_first_found p "" s H) as (a & b & Hs & _).
  now exists a, b.
Qed.

(** The escaping also leaves the end tag of a script as it is, and the
    literals of [DECKS] stand inside the script element of the shell. *)
Lemma script_end_survives_escaping (s : string) :
  contains "</script>" s = true ->
  contains "</script>" (js_string_escape s) = true.
Proof.
  intros H. destruct (contains_split _ _ H) as (a & b & ->).
  rewrite !js_string_escape_append.
  apply contains_append_r, contains_append_l. reflexivity.
Qed.

(** ** Reading text *)

Lemma utf8_ignore_cons (b0 : byte) (r0 : list byte) :
  utf8_ignore (b0 :: r0) =
  if (Byte.to_N b0 <? 128)%N then b0 :: utf8_ignore r0
  else if (Byte.to_N b0 <? 194)%N then utf8_ignore r0
  else if (Byte.to_N b0 <? 224)%N then
    match r0 with
    | [] => []
    | b1 :: r1 =>
        if is_cont b1 then b0 :: b1 :: utf8_ignore r1 else utf8_ignore r0
    end
  else if (Byte.to_N b0 <? 240)%N then
    match r0 with
    | [] => []
    | b1 :: r1 =>
        if bad_second3 b0 b1 then utf8_ignore r0
        else match r1 with
             | [] => []
             | b2 :: r2 =>
                 if is_cont b2 then b0 :: b1 :: b2 :: utf8_ignore r2
                 else utf8_ignore r1
             end
    end
  else if (Byte.to_N b0 <? 245)%N then
    match r0 with
    | [] => []
    | b1 :: r1 =>
        if bad_second4 b0 b1 then utf8_ignore r0
        else match r1 with
             | [] => []
             | b2 :: r2 =>
                 if negb (is_cont b2) then utf8_ignore r1
                 else match r2 with
                      | [] => []
                      | b3 :: r3 =>
                          if is_cont b3
                          then b0 :: b1 :: b2 :: b3 :: utf8_ignore r3
                          else utf8_ignore r2
                      end
             end
    end
  else utf8_ignore r0.
Proof. reflexivity. Qed.

Lemma utf8_valid_cons (b0 : byte) (r0 : list byte) :
  utf8_valid (b0 :: r0) =
  if (Byte.to_N b0 <? 128)%N then utf8_valid r0
  else if (Byte.to_N b0 <? 194)%N then false
  else if (Byte.to_N b0 <? 224)%N then
    match r0 with
    | b1 :: r1 => is_cont b1 && utf8_valid r1
    | _ => false
    end
  else if (Byte.to_N b0 <? 240)%N then
    match r0 with
    | b1 :: b2 :: r2 =>
        negb (bad_second3 b0 b1) && is_cont b2 && utf8_valid r2
    | _ => false
    end
  else if (Byte.to_N b0 <? 245)%N then
    match r0 with
    | b1 :: b2 :: b3 :: r3 =>
        negb (bad_second4 b0 b1) && is_cont b2 && is_cont b3 && utf8_valid r3
    | _ => false
    end
  else false.
Proof. reflexivity. Qed.



(** A well-formed file is kept whole. *)
Lemma utf8_ignore_id (bs : list byte) :
  utf8_valid bs = true -> utf8_ignore bs = bs.
Proof.
  assert (H : forall n bs, List.length bs <= n ->
                           utf8_valid bs = true -> utf8_ignore bs = bs).
  { clear bs. induction n as [|n IH]; intros [|b0 r0] Hlen Hv.
    - reflexivity.
    - simpl in Hlen; lia.
    - reflexivity.
    - rewrite utf8_valid_cons in Hv. rewrite utf8_ignore_cons.
      decoder_cases;
        repeat match goal with
               | E : negb _ = false |- _ => apply negb_false_iff in E
               | E : negb _ = true |- _ => apply negb_true_iff in E
               end;
        repeat match goal with
               | E : ?c = _, Hv : context [?c] |- _ => rewrite E in Hv
               end;
        cbn [negb andb] in Hv; try discriminate Hv;
        repeat match goal with
               | Hv : context [match ?l with [] => _ | _ :: _ => _ end] |- _ =>
                   destruct l
               end;
        try discriminate Hv;
        repeat match goal with
               | Hv : _ && _ = true |- _ => apply andb_true_iff in Hv as [? Hv]
               end;
        try congruence;
        repeat f_equal; apply IH; simpl in *; try lia; assumption. }
  exact (H _ _ (le_n _)).
Qed.




(** ** The title search *)

Lemma imatch_startswith (p s : string) :
  imatch p s =
  if startswith (lower p) (lower s) then Some (drop (length p) s) else None.
Proof.
  revert s; induction p as [|a p IH]; intros s; [reflexivity|].
  destruct s as [|b s]; [reflexivity|].
  cbn [imatch lower startswith length drop].
  destruct (Ascii.eqb (lower_ascii a) (lower_ascii b)); [apply IH | reflexivity].
Qed.



Lemma search_cons (r : regex) (c : ascii) (s : string) :
  search r (String c s) =
  match match_at r (String c s) with
  | Some (m, rest) => Some ("", m, rest)
  | None =>
      match search r s with
      | Some (pre, m, post) => Some (String c pre, m, post)
      | None => None
      end
  end.
Proof. reflexivity. Qed.


Lemma contains_false_startswith (p s : string) :
  contains p s = false -> startswith p s = false.
Proof. intros H. exact (contains_false_suffix p "" s H). Qed.



Lemma run_lazy_group (s : string) :
  run (Grp (Rep false 0 any_char)) s =
  map (fun rest => ([consumed s rest], rest)) (reps false any_char 0 s).
Proof. cbn [run]. rewrite map_map. reflexivity. Qed.




(** ** Title and charset are looked for in the inlined text *)



(** * Further properties of the program *)

(** ** Passes that find nothing to embed *)

Lemma render_ext (f g : rmatch -> string) (segs : list segment) :
  (forall m, In (Hit m) segs -> f m = g m) ->
  render f segs = render g segs.
Proof.
  unfold render. induction segs as [|seg segs IH]; intros H; [reflexivity|].
  cbn [map glue]. rewrite IH by (intros m Hm; apply H; now right).
  destruct seg as [t|m]; cbn [render_segment]; [reflexivity|].
  now rewrite (H m (or_introl eq_refl)).
Qed.





(** The output of a pass depends on the file system only at the paths
    that the local references it captures resolve to. *)
Theorem pass_reads_only_captured_references :
  forall (host : Platform) (p : pass) (fs fs' : FS) (base_dir text : string),
    (forall m, In (Hit m) (scan (pattern_of p) text) ->
               is_remote (reference_of p m) = false ->
               fs' (join_resolve base_dir (reference_of p m)) =
               fs (join_resolve base_dir (reference_of p m))) ->
    run_pass p fs' base_dir text = run_pass p fs base_dir text.
Proof.
  intros host p fs fs' base_dir text H. unfold run_pass, sub.
  apply render_ext. intros m Hm. specialize (H m Hm).
  destruct p; cbn [replacement_of reference_of] in *;
    unfold repl_link, repl_script, repl_img, to_data_uri, path_exists,
      read_text, read_bytes;
    match goal with
    | |- context [is_remote ?x] => destruct (is_remote x); [reflexivity|]
    end;
    now rewrite (H eq_refl).
Qed.

Lemma pass_reads_only_captured_references_witness :
  run_pass (host := posix_host) ImagePass
    (fun q => if String.eqb q "/work/logo.png" then File [x89; x50; x4e; x47]
              else Unreadable)
    "/work" local_img =
  run_pass (host := posix_host) ImagePass demo_fs "/work" local_img.
Proof.
  apply pass_reads_only_captured_references.
  intros m Hm _. vm_compute in Hm.
  destruct Hm as [Hm|[Hm|[Hm|[]]]]; try discriminate Hm.
  inversion Hm; subst m. reflexivity.
Defined.

(** ** Documents without the tags of the patterns *)

Lemma search_none (r : regex) (s : string) :
  (forall a b, s = a ++ b -> match_at r b = None) ->
  search r s = None.
Proof.
  induction s as [|c s IH]; intros H.
  - simpl. now rewrite (H "" "" eq_refl).
  - rewrite search_cons, (H "" (String c s) eq_refl), IH; [reflexivity|].
    intros a b Hs. apply (H (String c a) b). now rewrite Hs.
Qed.

Lemma contains_false_append_r (p a b : string) :
  contains p (a ++ b) = false -> contains p b = false.
Proof.
  induction a as [|c a IH]; simpl; intros H; [exact H|].
  apply orb_false_iff in H as [_ H]. exact (IH H).
Qed.

(** A pattern that begins with a literal finds nothing in a text that
    does not have the literal, in any letter case. *)
Lemma search_without_opener (r : regex) (opener s : string) :
  (forall x, startswith opener (lower x) = false -> match_at r x = None) ->
  contains opener (lower s) = false ->
  search r s = None.
Proof.
  intros Hr Hs. apply search_none. intros a b Hab. apply Hr.
  apply contains_false_startswith.
  apply contains_false_append_r with (a := lower a).
  now rewrite <- lower_append, <- Hab.
Qed.

Lemma scan_nothing (r : regex) (s : string) :
  search r s = None -> scan r s = [Text s].
Proof.
  intros H. unfold scan. destruct (length s); simpl; [reflexivity|].
  now rewrite H.
Qed.

Lemma pass_opener_fails (p : pass) (x : string) :
  startswith (match p with
              | StylesheetPass => "<link"
              | ScriptPass => "<script"
              | ImagePass => "<img"
              end) (lower x) = false ->
  match_at (pattern_of p) x = None.
Proof.
  intros H. unfold match_at.
  destruct p; cbn [pattern_of]; unfold LINK_CSS_RE, SCRIPT_SRC_RE, IMG_SRC_RE;
    cbn [cat]; cbn [run]; rewrite imatch_startswith;
    match goal with
    | |- context [lower ?l] => change (lower l) with l
    end;
    rewrite H; reflexivity.
Qed.

Lemma pass_without_opener {host : Platform} (p : pass) (fs : FS)
    (base_dir text : string) :
  contains (match p with
            | StylesheetPass => "<link"
            | ScriptPass => "<script"
            | ImagePass => "<img"
            end) (lower text) = false ->
  run_pass p fs base_dir text = text.
Proof.
  intros H. unfold run_pass, sub.
  rewrite (scan_nothing _ _
             (search_without_opener _ _ _ (pass_opener_fails p) H)).
  apply append_nil_r.
Qed.

(** A document that has none of [<link], [<script] and [<img], in any
    letter case, is processed to itself, whatever the files next to it:
    the deck is the text read and the title is taken from that text. *)
Theorem process_html_without_tags :
  forall (host : Platform) (fs : FS) (p raw_text : string),
    read_text fs p = Ok raw_text ->
    contains "<link" (lower raw_text) = false ->
    contains "<script" (lower raw_text) = false ->
    contains "<img" (lower raw_text) = false ->
    process_html fs p = Ok (extract_title raw_text (name p), raw_text).
Proof.
  intros host fs p raw_text Hread Hlink Hscript Himg.
  unfold process_html. rewrite Hread. cbn [bind].
  assert (E1 : inline_css_and_js fs raw_text (parent p) = raw_text).
  { unfold inline_css_and_js.
    change (run_pass ScriptPass fs (parent p)
              (run_pass StylesheetPass fs (parent p) raw_text) = raw_text).
    rewrite (pass_without_opener StylesheetPass fs (parent p) raw_text Hlink).
    exact (pass_without_opener ScriptPass fs (parent p) raw_text Hscript). }
  rewrite E1.
  change (inline_images fs raw_text (parent p))
    with (run_pass ImagePass fs (parent p) raw_text).
  rewrite (pass_without_opener ImagePass fs (parent p) raw_text Himg).
  reflexivity.
Qed.

Lemma process_html_without_tags_witness :
  process_html (host := posix_host) demo_fs "/work/second.html" =
  Ok ("second.html", "<p>two</p>").
Proof.
  rewrite (@process_html_without_tags posix_host demo_fs "/work/second.html"
             "<p>two</p>"); reflexivity.
Defined.

(** ** The title *)





Lemma rstrip_idempotent (s : string) : rstrip (rstrip s) = rstrip s.
Proof.
  induction s as [|c s IH]; [reflexivity|].
  cbn [rstrip]. destruct (rstrip s) as [|d t] eqn:E.
  - destruct (is_space c) eqn:Ec; [reflexivity|].
    cbn [rstrip]. now rewrite Ec.
  - change (rstrip (String c (String d t)))
      with (match rstrip (String d t) with
            | "" => if is_space c then "" else String c ""
            | x => String c x
            end).
    now rewrite IH.
Qed.

Lemma lstrip_head (s : string) :
  lstrip s = "" \/ exists c r, lstrip s = String c r /\ is_space c = false.
Proof.
  induction s as [|c s IH]; [now left|].
  cbn [lstrip]. destruct (is_space c) eqn:Ec; [exact IH|].
  right. now exists c, s.
Qed.

Lemma rstrip_keeps_head (c : ascii) (r : string) :
  is_space c = false -> exists r', rstrip (String c r) = String c r'.
Proof.
  intros Hc. cbn [rstrip]. destruct (rstrip r) as [|d t].
  - rewrite Hc. now exists "".
  - now exists (String d t).
Qed.

(** [strip] leaves nothing to strip. *)
Lemma strip_idempotent (s : string) : strip (strip s) = strip s.
Proof.
  unfold strip. destruct (lstrip_head s) as [E|(c & r & E & Hc)]; rewrite E.
  - reflexivity.
  - destruct (@rstrip_keeps_head c r Hc) as [r' Er]. rewrite Er.
    cbn [lstrip]. rewrite Hc, <- Er. apply rstrip_idempotent.
Qed.

(** The title of a text is the fallback, or it is not empty and has no
    white space at either end; with a fallback that is not empty, it is
    never empty. *)
Theorem extract_title_trimmed :
  forall (host : Platform) (text fallback : string),
    (extract_title text fallback = fallback \/
     (extract_title text fallback <> "" /\
      strip (extract_title text fallback) = extract_title text fallback)) /\
    (fallback <> "" -> extract_title text fallback <> "").
Proof.
  intros host text fallback. unfold extract_title.
  destruct (search TITLE_RE text) as [[[pre m] post]|]; [|tauto].
  destruct (strip (html_unescape (group 1 m))) as [|c t] eqn:E; cbn [or_else].
  - tauto.
  - split; [right; split; [discriminate|] | discriminate].
    rewrite <- E. apply strip_idempotent.
Qed.

Lemma extract_title_trimmed_witness :
  extract_title (host := posix_host) "<title> A </title>" "deck.html" <> "".
Proof.
  apply (extract_title_trimmed posix_host "<title> A </title>" "deck.html").
  discriminate.
Defined.

(** ** The charset step, repeated *)

(** Applying the charset step to its own result changes nothing, and a
    text with [<head>] in it always leaves the step with a declaration. *)
Theorem ensure_meta_charset_idempotent :
  forall text : string,
    ensure_meta_charset (ensure_meta_charset text) = ensure_meta_charset text /\
    (contains "<head>" text = true ->
     contains "<meta charset" (lower (ensure_meta_charset text)) = true).
Proof.
  intros text.
  assert (Hfix : forall t, contains "<meta charset" (lower t) = true ->
                           ensure_meta_charset t = t).
  { intros t Ht. unfold ensure_meta_charset. now rewrite Ht. }
  destruct (contains "<meta charset" (lower text)) eqn:Emeta.
  - rewrite (Hfix text Emeta). split; [exact (Hfix text Emeta) | now intros _].
  - destruct (contains "<head>" text) eqn:Ehead.
    + assert (Hnow : contains "<meta charset"
                       (lower (ensure_meta_charset text)) = true).
      { unfold ensure_meta_charset. rewrite Emeta. cbn [negb].
        destruct (replace_first_found "<head>" meta_charset text Ehead)
          as (pre & post & Htext & _ & Hrep).
        rewrite Hrep.
        destruct (contains "<meta charset"
                    (lower (pre ++ meta_charset ++ post))) eqn:E; [reflexivity|].
        apply contains_occurrences in E.
        rewrite occurrences_after_insertion in E; [discriminate|].
        rewrite <- Htext. now apply contains_occurrences. }
      split; [exact (Hfix _ Hnow) | now intros _].
    + assert (Hsame : ensure_meta_charset text = text).
      { unfold ensure_meta_charset. rewrite Emeta. cbn [negb].
        now apply replace_first_absent. }
      rewrite !Hsame. split; [reflexivity | discriminate].
Qed.

Lemma ensure_meta_charset_idempotent_witness :
  contains "<meta charset"
    (lower (ensure_meta_charset "<html><head></head></html>")) = true.
Proof.
  apply (ensure_meta_charset_idempotent "<html><head></head></html>").
  reflexivity.
Defined.

(** ** Line ends of the text read *)

Lemma universal_newlines_cons (c : ascii) (s' : string) :
  universal_newlines (String c s') =
  if Ascii.eqb c "013" then
    match s' with
    | String d s'' =>
        if Ascii.eqb d "010" then String "010" (universal_newlines s'')
        else String "010" (universal_newlines s')
    | "" => String "010" ""
    end
  else String c (universal_newlines s').
Proof. reflexivity. Qed.

Lemma universal_newlines_no_cr (s : string) :
  has_char "013" (universal_newlines s) = false.
Proof.
  assert (H : forall n s, length s <= n ->
                          has_char "013" (universal_newlines s) = false).
  { clear s. induction n as [|n IH]; intros [|c s] Hlen;
      [reflexivity | simpl in Hlen; lia | reflexivity |].
    simpl in Hlen. rewrite universal_newlines_cons.
    destruct (Ascii.eqb c "013") eqn:Ec.
    - destruct s as [|d s]; [reflexivity|].
      destruct (Ascii.eqb d "010"); cbn [has_char];
        rewrite IH by (simpl in *; lia); reflexivity.
    - cbn [has_char]. rewrite Ec, IH by lia. reflexivity. }
  exact (H _ _ (le_n _)).
Qed.

Lemma universal_newlines_id (s : string) :
  has_char "013" s = false -> universal_newlines s = s.
Proof.
  induction s as [|c s IH]; intros H; [reflexivity|].
  cbn [has_char] in H. apply orb_false_iff in H as [Hc Hs].
  now rewrite universal_newlines_cons, Hc, IH.
Qed.

(** Text read from a file never has a carriage return; and a file that
    is well-formed UTF-8 with no carriage return is read as its own
    bytes: reading and encoding again gives the file back. *)
Theorem read_text_line_ends :
  forall (fs : FS) (p : string),
    (forall text, read_text fs p = Ok text -> has_char "013" text = false) /\
    (forall content,
       fs p = File content ->
       utf8_valid content = true ->
       has_char "013" (string_of_list_byte content) = false ->
       read_text fs p = Ok (string_of_list_byte content) /\
       forall text, read_text fs p = Ok text ->
                    list_byte_of_string text = content).
Proof.
  intros fs p. unfold read_text, decode_text. split.
  - intros text H. destruct (fs p); try discriminate.
    inversion H; subst. apply universal_newlines_no_cr.
  - intros content Hfile Hvalid Hcr. rewrite Hfile.
    rewrite (utf8_ignore_id _ Hvalid), (universal_newlines_id _ Hcr).
    split; [reflexivity|].
    intros text H. inversion H; subst.
    apply list_byte_of_string_of_list_byte.
Qed.

Lemma read_text_line_ends_witness :
  read_text demo_fs "/work/style.css" = Ok "body{color:red}" /\
  has_char "013" "body{color:red}" = false.
Proof.
  destruct (read_text_line_ends demo_fs "/work/style.css") as [Hcr Hround].
  destruct (Hround (list_byte_of_string "body{color:red}")) as [Hread _];
    [reflexivity | reflexivity | reflexivity |].
  split; [exact Hread | exact (Hcr _ Hread)].
Defined.

(** ** An input that exists and cannot be read *)






(** ** What the player reads back from a literal *)




(** ** The address made of an image *)

Lemma b64_char_index (i : N) :
  (i < 64)%N ->
  b64_index (b64_char i) = Some i /\ Ascii.eqb (b64_char i) "=" = false.
Proof.
  intros Hi. destruct i as [|q]; [split; reflexivity|].
  do 6 (try destruct q as [q|q|]); try lia; split; reflexivity.
Qed.

Lemma byte_to_N_bound (a : byte) : (Byte.to_N a < 256)%N.
Proof. destruct a; reflexivity. Qed.

Lemma sextets_rebuild (n : N) :
  ((((0 * 64 + n / 262144) * 64 + (n / 4096) mod 64) * 64 +
    (n / 64) mod 64) * 64 + n mod 64 = n)%N.
Proof.
  pose proof (N.Div0.div_mod n 64) as E1.
  assert (F1 : (n / 4096 = n / 64 / 64)%N) by (now rewrite N.Div0.div_div).
  assert (F2 : (n / 262144 = n / 4096 / 64)%N) by (now rewrite N.Div0.div_div).
  pose proof (N.Div0.div_mod (n / 64) 64) as E2. rewrite <- F1 in E2.
  pose proof (N.Div0.div_mod (n / 4096) 64) as E3. rewrite <- F2 in E3.
  lia.
Qed.

Lemma three_bytes (a b c : N) :
  (a < 256 -> b < 256 -> c < 256 ->
   let n := a * 65536 + b * 256 + c in
   n / 65536 = a /\ (n / 256) mod 256 = b /\ n mod 256 = c)%N.
Proof.
  intros Ha Hb Hc n. subst n. repeat split.
  - symmetry. apply (N.div_unique _ 65536 _ (b * 256 + c)); lia.
  - assert (Hq : ((a * 65536 + b * 256 + c) / 256 = a * 256 + b)%N)
      by (symmetry; apply (N.div_unique _ 256 _ c); lia).
    rewrite Hq. symmetry. apply (N.mod_unique _ 256 a); lia.
  - symmetry. apply (N.mod_unique _ 256 (a * 256 + b)); lia.
Qed.

Lemma two_bytes (a b : N) :
  (a < 256 -> b < 256 ->
   let m := a * 65536 + b * 256 in
   let k := ((0 * 64 + m / 262144) * 64 + (m / 4096) mod 64) * 64 +
            (m / 64) mod 64 in
   k / 1024 = a /\ (k / 4) mod 256 = b)%N.
Proof.
  intros Ha Hb m k.
  assert (Hk : (k = a * 1024 + b * 4)%N).
  { assert (Hq : (m / 64 = a * 1024 + b * 4)%N)
      by (subst m; symmetry; apply (N.div_unique _ 64 _ 0); lia).
    assert (F1 : (m / 4096 = m / 64 / 64)%N) by (now rewrite N.Div0.div_div).
    assert (F2 : (m / 262144 = m / 4096 / 64)%N)
      by (now rewrite N.Div0.div_div).
    pose proof (N.Div0.div_mod (m / 64) 64) as E2. rewrite <- F1 in E2.
    pose proof (N.Div0.div_mod (m / 4096) 64) as E3. rewrite <- F2 in E3.
    subst k. lia. }
  rewrite Hk. split.
  - symmetry. apply (N.div_unique _ 1024 _ (b * 4)); lia.
  - assert (Hq : ((a * 1024 + b * 4) / 4 = a * 256 + b)%N)
      by (symmetry; apply (N.div_unique _ 4 _ 0); lia).
    rewrite Hq. symmetry. apply (N.mod_unique _ 256 a); lia.
Qed.

Lemma sextet_bound (n : N) : ((n mod 64) < 64)%N.
Proof. apply N.mod_lt. discriminate. Qed.

Lemma b64encode_three (a b c : byte) (rest : list byte) :
  b64decode (b64encode (a :: b :: c :: rest)) =
  match b64decode (b64encode rest) with
  | Some bs => Some (a :: b :: c :: bs)
  | None => None
  end.
Proof.
  cbn [b64encode]. cbv zeta.
  pose proof (byte_to_N_bound a) as Ha.
  pose proof (byte_to_N_bound b) as Hb.
  pose proof (byte_to_N_bound c) as Hc.
  destruct (three_bytes Ha Hb Hc) as (Da & Db & Dc).
  set (n := (Byte.to_N a * 65536 + Byte.to_N b * 256 + Byte.to_N c)%N) in *.
  assert (H1 : (n / 262144 < 64)%N)
    by (apply N.Div0.div_lt_upper_bound; subst n; lia).
  destruct (b64_char_index H1) as [I1 _].
  destruct (b64_char_index (sextet_bound (n / 4096))) as [I2 _].
  destruct (b64_char_index (sextet_bound (n / 64))) as [I3 _].
  destruct (b64_char_index (sextet_bound n)) as [I4 E4].
  cbn [b64decode]. rewrite E4.
  unfold sextets. cbn [fold_left]. rewrite I1, I2, I3, I4.
  rewrite sextets_rebuild, Da, Db, Dc, !Byte.of_to_N. reflexivity.
Qed.

Lemma b64encode_round_trip (bs : list byte) :
  b64decode (b64encode bs) = Some bs.
Proof.
  assert (H : forall n bs, (List.length bs <= n)%nat ->
                           b64decode (b64encode bs) = Some bs).
  { induction n as [|n IH]; intros [|a [|b [|c rest]]] Hlen;
      try reflexivity; try (simpl in Hlen; lia).
    - destruct a; reflexivity.
    - cbn [b64encode]. cbv zeta.
      pose proof (byte_to_N_bound a) as Ha.
      pose proof (byte_to_N_bound b) as Hb.
      destruct (two_bytes Ha Hb) as (Da & Db).
      set (m := (Byte.to_N a * 65536 + Byte.to_N b * 256)%N) in *.
      assert (H1 : (m / 262144 < 64)%N)
        by (apply N.Div0.div_lt_upper_bound; subst m; lia).
      destruct (b64_char_index H1) as [I1 _].
      destruct (b64_char_index (sextet_bound (m / 4096))) as [I2 _].
      destruct (b64_char_index (sextet_bound (m / 64))) as [I3 E3].
      cbn [b64decode]. rewrite E3.
      change (Ascii.eqb "=" "=") with true. cbv iota.
      unfold sextets. cbn [fold_left]. rewrite I1, I2, I3.
      rewrite Da, Db, !Byte.of_to_N. reflexivity.
    - rewrite b64encode_three, IH; [reflexivity | simpl in Hlen; lia]. }
  exact (H _ bs (le_n _)).
Qed.

Lemma b64encode_length (bs : list byte) :
  length (b64encode bs) = 4 * ((List.length bs + 2) / 3).
Proof.
  assert (H : forall n bs, (List.length bs <= n)%nat ->
                length (b64encode bs) = 4 * ((List.length bs + 2) / 3)).
  { induction n as [|n IH]; intros [|a [|b [|c rest]]] Hlen;
      try reflexivity; try (simpl in Hlen; lia).
    cbn [b64encode]. cbv zeta. cbn [length List.length].
    rewrite IH by (simpl in Hlen; lia).
    replace (S (S (S (List.length rest))) + 2)
      with (List.length rest + 2 + 1 * 3) by lia.
    rewrite Nat.div_add by discriminate. lia. }
  exact (H _ bs (le_n _)).
Qed.

(** The address made of a file carries the file whole: its payload is
    four letters for every three bytes begun and reads back as the bytes of
    the file; and the address counts as remote, so that a page already
    bundled is not inlined twice. *)
Theorem data_uri_carries_file :
  forall (host : Platform) (fs : FS) (p : string) (content : list byte),
    fs p = File content ->
    exists payload,
      to_data_uri fs p = Ok ("data:" ++ mime_of p ++ ";base64," ++ payload) /\
      b64decode payload = Some content /\
      length payload = 4 * ((List.length content + 2) / 3) /\
      is_remote ("data:" ++ mime_of p ++ ";base64," ++ payload) = true.
Proof.
  intros host fs p content Hp. exists (b64encode content).
  unfold to_data_uri, read_bytes. rewrite Hp. cbn [bind].
  split; [reflexivity|]. split; [apply b64encode_round_trip|].
  split; [apply b64encode_length|].
  unfold is_remote. apply orb_true_iff. right. reflexivity.
Qed.

Lemma data_uri_carries_file_witness :
  exists payload,
    to_data_uri (host := posix_host) demo_fs "/work/logo.png" =
      Ok ("data:" ++ mime_of (host := posix_host) "/work/logo.png" ++
          ";base64," ++ payload) /\
    b64decode payload = Some [x89; x50; x4e; x47] /\
    length payload = 4 * ((4 + 2) / 3) /\
    is_remote ("data:" ++ mime_of (host := posix_host) "/work/logo.png" ++
               ";base64," ++ payload) = true.
Proof.
  apply (data_uri_carries_file posix_host demo_fs "/work/logo.png").
  reflexivity.
Defined.
